(** * rotunda: a shallow embedding of [app.py]

    The Flask application of the repository is modelled as state-passing
    request handlers over an explicit store (the three SQLAlchemy tables), the
    login session, the flashed messages and a log of the outgoing HTTP requests.
    Python values keep the shape they have in the code: form fields are
    optional strings, integers are unbounded ([Z]), floats are IEEE binary64
    values, a raised exception is a result of its own. *)

From Stdlib Require Import ZArith Ascii Floats.SpecFloat.
From stdpp Require Import base option list sorting strings pretty.

(** ** Python results: a value or a raised exception *)

Inductive Exn :=
| AttributeError
| TypeError
| ValueError
| KeyError
| IndexError
| ZeroDivisionError
| OverflowError
| IntegrityError
| RequestException (msg : string).

Inductive result (A : Type) :=
| Ok (a : A)
| Raise (e : Exn).
Arguments Ok {A} a.
Arguments Raise {A} e.

Definition result_bind {A B} (r : result A) (k : A → result B) : result B :=
  match r with
  | Ok a => k a
  | Raise e => Raise e
  end.

Global Instance result_ret : MRet result := λ A a, Ok a.
Global Instance result_mbind : MBind result := λ A B k r, result_bind r k.

Definition result_map {A B} (f : A → B) (r : result A) : result B :=
  result_bind r (λ a, Ok (f a)).

Definition returns {A} (r : result A) : Prop := ∃ a, r = Ok a.

(** ** binary64 floats, as CPython computes with them *)

Module Float64.
Local Open Scope Z_scope.

Definition prec : Z := 53.
Definition emax : Z := 1024.

Definition mul : spec_float → spec_float → spec_float := SFmul prec emax.
Definition div : spec_float → spec_float → spec_float := SFdiv prec emax.

(** The integer [z] as an exact (not yet rounded) operand. *)
Definition exact (z : Z) : spec_float :=
  match z with
  | Z0 => S754_zero false
  | Zpos p => S754_finite false p 0
  | Zneg p => S754_finite true p 0
  end.

(** [float(z)]: the binary64 value nearest to [z], ties to even. *)
Definition of_int (z : Z) : spec_float := binary_normalize prec emax z 0 false.

(** [a / b] on two [int]s: the correctly rounded quotient;
    [ZeroDivisionError] for a zero divisor, [OverflowError] when the
    quotient is too large for a float. *)
Definition int_truediv (a b : Z) : result spec_float :=
  if b =? 0 then Raise ZeroDivisionError
  else match div (exact a) (exact b) with
       | S754_infinity _ => Raise OverflowError
       | q => Ok q
       end.

(** The integer nearest to [a / b] for [0 ≤ a] and [0 < b], ties to even. *)
Definition div_half_even (a b : Z) : Z :=
  let q := a / b in
  match 2 * (a mod b) ?= b with
  | Lt => q
  | Gt => q + 1
  | Eq => if Z.even q then q else q + 1
  end.

(** The binary64 value nearest to the decimal [n / 10], which is what a
    literal such as [66.7] denotes ([n = 667]). *)
Definition tenths (n : Z) : spec_float := div (exact n) (exact 10).

(** [round(x, 1)]: the exact value of [x] is rounded to one decimal digit,
    ties to even, and the decimal is converted back to the nearest float;
    the sign of [x] is kept, infinities and NaN round to themselves. *)
Definition round1 (x : spec_float) : spec_float :=
  match x with
  | S754_finite s m e =>
      let n := match e with
               | Zneg k => div_half_even (10 * Zpos m) (Z.pow_pos 2 k)
               | _ => 10 * Zpos m * 2 ^ e
               end in
      match n with
      | Z0 => S754_zero s
      | _ => tenths (if s then - n else n)
      end
  | _ => x
  end.
End Float64.

(** ** The quiz scorer *)

Definition sum (answers : list Z) : Z := foldr Z.add 0%Z answers.

(** [calculate_civic_engagement_score]: [len], [sum], the true division, the
    product with [100] and [round(score, 1)], in the order of the code. *)
Definition calculate_civic_engagement_score (answers : list Z) : result spec_float :=
  let total_questions := Z.of_nat (length answers) in
  let correct_answers := sum answers in
  ratio ← Float64.int_truediv correct_answers total_questions;
  let score := Float64.mul ratio (Float64.of_int 100) in
  Ok (Float64.round1 score).

(** The scorer as the specification words it: the exact rational
    [100 * sum / count] rounded to one decimal digit (ties to even), as the
    float nearest to that decimal. *)
Definition spec_score (answers : list Z) : spec_float :=
  let s := (100 * sum answers)%Z in
  let count := Z.of_nat (length answers) in
  let n := Float64.div_half_even (10 * Z.abs s) count in
  match n with
  | Z0 => S754_zero (s <? 0)%Z
  | _ => Float64.tenths (if (s <? 0)%Z then - n else n)
  end.

(** ** The tables of [purple_insta.db] *)

Module User.
Record t := mk {
  id : Z;
  username : string;
  email : string;
  password : string;
  zip_code : option string
}.
End User.

(** [likes] is a nullable column with [default=0]; the application inserts
    posts without a value for it, so every row holds an integer. *)
Module Post.
Record t := mk {
  id : Z;
  content : string;
  user_id : Z;
  likes : Z
}.
End Post.

Module Comment.
Record t := mk {
  id : Z;
  content : string;
  user_id : Z;
  post_id : Z
}.
End Comment.

Record Db := mkDb {
  users : list User.t;
  posts : list Post.t;
  comments : list Comment.t
}.

(** [db.create_all()] on a new database file: three empty tables. *)
Definition init_db : Db := mkDb [] [] [].

(** An integer primary key: one more than the largest key in the table. *)
Definition next_id (ids : list Z) : Z := (foldr Z.max 0 ids + 1)%Z.

(** [User.query.filter_by(username=...).first()]; no row has a NULL name. *)
Definition user_by_username (d : Db) (username : option string) : option User.t :=
  match username with
  | Some h => snd <$> list_find (λ u, User.username u = h) (users d)
  | None => None
  end.

(** [User.query.get(user_id)] *)
Definition user_get (d : Db) (user_id : Z) : option User.t :=
  snd <$> list_find (λ u, User.id u = user_id) (users d).

(** The integers SQLite takes as a parameter of a statement: 64 bits,
    signed. Binding a larger Python [int] raises [OverflowError] before the
    statement runs. The ids in the URLs ([<int:post_id>]) are not bounded. *)
Definition sqlite_integer (z : Z) : Prop := (- 2 ^ 63 ≤ z < 2 ^ 63)%Z.

Global Instance sqlite_integer_dec z : Decision (sqlite_integer z).
Proof. unfold sqlite_integer. apply _. Defined.

(** The first row of the posts with the given id, and its position. *)
Definition post_row (d : Db) (post_id : Z) : option (nat * Post.t) :=
  list_find (λ p, Post.id p = post_id) (posts d).

(** [Post.query.get(post_id)], with the position of the row. *)
Definition post_get (d : Db) (post_id : Z) : result (option (nat * Post.t)) :=
  if decide (sqlite_integer post_id) then Ok (post_row d post_id)
  else Raise OverflowError.

(** [Post.id.desc()] *)
Definition id_desc (p q : Post.t) : Prop := (Post.id q ≤ Post.id p)%Z.

Global Instance id_desc_dec : RelDecision id_desc.
Proof. intros p q. unfold id_desc. apply _. Defined.

(** [Post.query.order_by(Post.id.desc()).all()] *)
Definition posts_by_id_desc (d : Db) : list Post.t := merge_sort id_desc (posts d).

(** [db.session.add(User(...)); db.session.commit()]: the columns
    [username] and [email] are [unique=True, nullable=False], [password] is
    [nullable=False]; a violated constraint raises [IntegrityError] and
    leaves the table as it was. *)
Definition commit_user (username email : option string) (password : string)
    (zip_code : option string) (d : Db) : result Db :=
  match username, email with
  | Some h, Some e =>
      if decide (Exists (λ u, User.username u = h ∨ User.email u = e) (users d))
      then Raise IntegrityError
      else Ok (mkDb (users d ++ [User.mk (next_id (User.id <$> users d)) h e password zip_code])
                    (posts d) (comments d))
  | _, _ => Raise IntegrityError
  end.

(** [db.session.add(Post(...)); db.session.commit()]: [content] is
    [nullable=False], [likes] takes its default [0]. *)
Definition commit_post (content : option string) (user_id : Z) (d : Db) : result Db :=
  match content with
  | Some c =>
      Ok (mkDb (users d)
               (posts d ++ [Post.mk (next_id (Post.id <$> posts d)) c user_id 0])
               (comments d))
  | None => Raise IntegrityError
  end.

(** [db.session.add(Comment(...)); db.session.commit()]: the post a comment
    names is not looked up, but its id is bound to the INSERT, which raises
    [OverflowError] for an id SQLite cannot take, before any constraint is
    checked; [content] is [nullable=False]. *)
Definition commit_comment (content : option string) (user_id post_id : Z) (d : Db) : result Db :=
  if decide (sqlite_integer post_id) then
    match content with
    | Some c =>
        Ok (mkDb (users d) (posts d)
                 (comments d
                    ++ [Comment.mk (next_id (Comment.id <$> comments d)) c user_id post_id]))
    | None => Raise IntegrityError
    end
  else Raise OverflowError.

(** [post.likes += 1] *)
Definition liked (post : Post.t) : Post.t :=
  Post.mk (Post.id post) (Post.content post) (Post.user_id post) (Post.likes post + 1).

(** [post.likes += 1; db.session.commit()] on the row at position [i]. *)
Definition commit_like (i : nat) (post : Post.t) (d : Db) : Db :=
  mkDb (users d) (<[i := liked post]> (posts d)) (comments d).

(** ** JSON documents as Python values *)

#[warnings="-register-all"]
Inductive Json :=
| JNull
| JBool (b : bool)
| JInt (z : Z)
| JFloat (f : spec_float)
| JStr (s : string)
| JList (l : list Json)
| JDict (items : list (string * Json)).

Definition chars (s : string) : list string :=
  (λ c, String c EmptyString) <$> String.list_ascii_of_string s.

Definition dict_lookup (items : list (string * Json)) (key : string) : option Json :=
  (λ found, found.2.2) <$> list_find (λ kv, kv.1 = key) items.

(** [d.get(key, default)]: only a dict has the method. *)
Definition py_get (d : Json) (key : string) (default_value : Json) : result Json :=
  match d with
  | JDict items => Ok (default default_value (dict_lookup items key))
  | _ => Raise AttributeError
  end.

(** [for x in v]: the elements of a list, the keys of a dict, the characters
    of a string; nothing else in a JSON document is iterable. *)
Definition py_iter (v : Json) : result (list Json) :=
  match v with
  | JList l => Ok l
  | JDict items => Ok ((λ kv, JStr kv.1) <$> items)
  | JStr s => Ok (JStr <$> chars s)
  | _ => Raise TypeError
  end.

(** A sequence subscript: negative positions count from the end. *)
Definition seq_item {A} (l : list A) (i : Z) : result A :=
  let n := Z.of_nat (length l) in
  let j := (if i <? 0 then i + n else i)%Z in
  if (j <? 0)%Z then Raise IndexError
  else match l !! Z.to_nat j with
       | Some x => Ok x
       | None => Raise IndexError
       end.

(** [v[k]] *)
Definition py_getitem (v k : Json) : result Json :=
  match v with
  | JList l =>
      match k with
      | JInt i => seq_item l i
      | JBool b => seq_item l (if b then 1 else 0)%Z
      | _ => Raise TypeError
      end
  | JStr s =>
      match k with
      | JInt i => result_map JStr (seq_item (chars s) i)
      | JBool b => result_map JStr (seq_item (chars s) (if b then 1 else 0)%Z)
      | _ => Raise TypeError
      end
  | JDict items =>
      match k with
      | JStr key =>
          match dict_lookup items key with
          | Some x => Ok x
          | None => Raise KeyError
          end
      | JList _ | JDict _ => Raise TypeError
      | _ => Raise KeyError
      end
  | _ => Raise TypeError
  end.

(** ** Requests, responses and the outside world *)

Inductive Method := GET | POST.

(** [request.form] is a multi-dict: [get] returns the first value of a key. *)
Record Request := mkRequest {
  method : Method;
  form : list (string * string)
}.

Definition form_get (request : Request) (key : string) : option string :=
  (λ found, found.2.2) <$> list_find (λ kv, kv.1 = key) (form request).

Record Representative := mkRep {
  rep_name : Json;
  rep_office : Json;
  rep_party : Json;
  rep_phones : Json;
  rep_urls : Json;
  rep_emails : Json;
  rep_photoUrl : Json
}.

(** What a template is rendered with. *)
Inductive TemplateArgs :=
| NoArgs
| PostsArg (posts : list Post.t)
| ScoreArg (score : spec_float)
| RepresentativesArg (representatives : list Representative)
| RepNameArg (rep_name : string).

Inductive Response :=
| Render (template : string) (args : TemplateArgs)
| Redirect (endpoint : string)
| MethodNotAllowed.

(** What [response.json()] makes of the body: the decoded document, or a
    [JSONDecodeError] with its message, which is a [RequestException] in
    [requests]. *)
Inductive Body :=
| Undecodable (msg : string)
| Document (data : Json).

(** A response of the civic-information service as [requests] hands it over. *)
Record HttpResponse := mkHttpResponse {
  status_code : Z;
  reason : string;
  url : string;
  body : Body
}.

Inductive HttpResult :=
| TransportFailure (msg : string)
| Responded (response : HttpResponse).

(** What a request handler takes from outside the program: the configured
    API key, the salt the password hasher draws, and the network, which
    answers a GET by the requests made before it and its URL. *)
Record World := mkWorld {
  GOOGLE_CIVIC_API_KEY : string;
  gen_salt : string;
  network : list string → string → HttpResult
}.

(** The state one request leaves to the next: the tables, the user id in the
    session cookie, the messages flashed so far, and the URLs requested from
    the network so far. *)
Record State := mkState {
  db : Db;
  session : option Z;
  flashes : list string;
  http_log : list string
}.

(** ** The handler monad: state passing with Python exceptions *)

Definition M (A : Type) : Type := State → result A * State.

Global Instance M_ret : MRet M := λ A a st, (Ok a, st).

Global Instance M_bind : MBind M := λ A B k m st,
  match m st with
  | (Ok a, st') => k a st'
  | (Raise e, st') => (Raise e, st')
  end.

Definition lift {A} (r : result A) : M A := λ st, (r, st).

Definition gets {A} (f : State → A) : M A := λ st, (Ok (f st), st).

(** A query on the tables, which may raise. *)
Definition query {A} (q : Db → result A) : M A := λ st, (q (db st), st).

(** [flash(message)] *)
Definition flash (message : string) : M unit := λ st,
  (Ok (), mkState (db st) (session st) (flashes st ++ [message]) (http_log st)).

(** A commit: the tables change when it succeeds, an [IntegrityError] leaves them. *)
Definition commit (tx : Db → result Db) : M unit := λ st,
  match tx (db st) with
  | Ok d => (Ok (), mkState d (session st) (flashes st) (http_log st))
  | Raise e => (Raise e, st)
  end.

(** [login_user(user)] *)
Definition login_user (user : User.t) : M unit := λ st,
  (Ok (), mkState (db st) (Some (User.id user)) (flashes st) (http_log st)).

(** [logout_user()] *)
Definition logout_user : M unit := λ st,
  (Ok (), mkState (db st) None (flashes st) (http_log st)).

(** [requests.get(url)]: the request is issued (and logged), a transport
    failure is raised as a [RequestException] with its message. *)
Definition requests_get (w : World) (api_url : string) : M HttpResponse := λ st,
  let st' := mkState (db st) (session st) (flashes st) (http_log st ++ [api_url]) in
  match network w (http_log st) api_url with
  | Responded response => (Ok response, st')
  | TransportFailure msg => (Raise (RequestException msg), st')
  end.

(** The message [raise_for_status] builds: empty unless the status is a
    client error (400-499) or a server error (500-599). *)
Definition http_error_msg (response : HttpResponse) : string :=
  let code := status_code response in
  if bool_decide (400 ≤ code < 500)%Z then
    pretty code +:+ " Client Error: " +:+ reason response +:+ " for url: " +:+ url response
  else if bool_decide (500 ≤ code < 600)%Z then
    pretty code +:+ " Server Error: " +:+ reason response +:+ " for url: " +:+ url response
  else "".

(** [response.raise_for_status()]: an [HTTPError], which is a
    [RequestException], when there is a message. *)
Definition raise_for_status (response : HttpResponse) : result unit :=
  match http_error_msg response with
  | EmptyString => Ok ()
  | msg => Raise (RequestException msg)
  end.

(** [response.json()] *)
Definition response_json (response : HttpResponse) : result Json :=
  match body response with
  | Document data => Ok data
  | Undecodable msg => Raise (RequestException msg)
  end.

(** [try: ... except requests.RequestException as e: ...], the handler
    receiving [str(e)]. *)
Definition try_except_RequestException {A} (body : M A) (handler : string → M A) : M A := λ st,
  match body st with
  | (Raise (RequestException msg), st') => handler msg st'
  | outcome => outcome
  end.

(** [load_user] and flask-login's [current_user]: the user whose id is in
    the session, if that row exists. *)
Definition load_user (d : Db) (user_id : Z) : option User.t := user_get d user_id.

Definition current_user (st : State) : option User.t :=
  session st ≫= load_user (db st).

(** [@login_required]: an anonymous request is sent to the [login_view] with
    flask-login's message; otherwise the view runs with [current_user]. *)
Definition login_required (view : User.t → M Response) : M Response := λ st,
  match current_user st with
  | Some user => view user st
  | None => (flash "Please log in to access this page.";; mret (Redirect "login")) st
  end.

(** ** The libraries the handlers call *)

(** [werkzeug.security]: the handlers pass the form's password as it is, so
    both functions take an optional string and may raise. The hasher draws
    its salt from the world. *)
Class Werkzeug := {
  generate_password_hash : string → option string → result string;
  check_password_hash : string → option string → result bool
}.

(** What the application relies on: a password hashes, and the hash of a
    password verifies against it. *)
Class WerkzeugSound {werkzeug : Werkzeug} : Prop := {
  generate_returns : ∀ salt password,
    returns (generate_password_hash salt (Some password));
  check_generated : ∀ salt password pwhash,
    generate_password_hash salt (Some password) = Ok pwhash →
    check_password_hash pwhash (Some password) = Ok true
}.

(** Python's [int] on the text of a form field. *)
Class PyInt := int_of_str : string → result Z.

(** ** The views *)

Section views.
Context {werkzeug : Werkzeug} {pyint : PyInt}.

Definition index (user : User.t) : M Response :=
  posts ← gets (λ st, posts_by_id_desc (db st));
  mret (Render "index.html" (PostsArg posts)).

Definition register (w : World) (request : Request) : M Response :=
  match method request with
  | POST =>
      let username := form_get request "username" in
      let email := form_get request "email" in
      let password := form_get request "password" in
      let zip_code := form_get request "zip_code" in
      user ← gets (λ st, user_by_username (db st) username);
      match user with
      | Some _ =>
          flash "Username already exists";;
          mret (Redirect "register")
      | None =>
          pwhash ← lift (generate_password_hash (gen_salt w) password);
          commit (commit_user username email pwhash zip_code);;
          mret (Redirect "login")
      end
  | GET => mret (Render "register.html" NoArgs)
  end.

Definition login (request : Request) : M Response :=
  match method request with
  | POST =>
      let username := form_get request "username" in
      let password := form_get request "password" in
      user ← gets (λ st, user_by_username (db st) username);
      verified ← match user with
                 | Some user => lift (check_password_hash (User.password user) password)
                 | None => mret false
                 end;
      match user, verified with
      | Some user, true =>
          login_user user;;
          mret (Redirect "index")
      | _, _ =>
          flash "Invalid username or password";;
          mret (Render "login.html" NoArgs)
      end
  | GET => mret (Render "login.html" NoArgs)
  end.

Definition logout (user : User.t) : M Response :=
  logout_user;;
  mret (Redirect "login").

Definition create_post (request : Request) (user : User.t) : M Response :=
  let content := form_get request "content" in
  commit (commit_post content (User.id user));;
  mret (Redirect "index").

Definition like_post (post_id : Z) (user : User.t) : M Response :=
  post ← query (λ d, post_get d post_id);
  match post with
  | Some (i, post) => commit (λ d, Ok (commit_like i post d))
  | None => mret ()
  end;;
  mret (Redirect "index").

Definition add_comment (post_id : Z) (request : Request) (user : User.t) : M Response :=
  let content := form_get request "content" in
  commit (commit_comment content (User.id user) post_id);;
  mret (Redirect "index").

(** [int(request.form.get(key, 0))] *)
Definition answer (request : Request) (key : string) : result Z :=
  match form_get request key with
  | Some text => int_of_str text
  | None => Ok 0%Z
  end.

Definition civic_quiz (request : Request) (user : User.t) : M Response :=
  match method request with
  | POST =>
      answer1 ← lift (answer request "answer1");
      answer2 ← lift (answer request "answer2");
      answer3 ← lift (answer request "answer3");
      score ← lift (calculate_civic_engagement_score [answer1; answer2; answer3]);
      mret (Render "quiz_result.html" (ScoreArg score))
  | GET => mret (Render "civic_quiz.html" NoArgs)
  end.

(** The body of the inner loop: one official of one office. *)
Definition representative (office officials index : Json) : result Representative :=
  official ← py_getitem officials index;
  name ← py_get official "name" JNull;
  office_name ← py_get office "name" JNull;
  party ← py_get official "party" JNull;
  phones ← py_get official "phones" (JList []);
  urls ← py_get official "urls" (JList []);
  emails ← py_get official "emails" (JList []);
  photoUrl ← py_get official "photoUrl" JNull;
  Ok (mkRep name office_name party phones urls emails photoUrl).

(** A [for] loop that appends to [reps] and stops at the first exception. *)
Fixpoint for_each {A} (items : list A) (body : A → result (list Representative))
    : result (list Representative) :=
  match items with
  | [] => Ok []
  | item :: rest =>
      reps ← body item;
      more ← for_each rest body;
      Ok (reps ++ more)
  end.

Definition collect_representatives (offices officials : Json) : result (list Representative) :=
  office_list ← py_iter offices;
  for_each office_list (λ office,
    indices ← py_getitem office (JStr "officialIndices");
    index_list ← py_iter indices;
    for_each index_list (λ index,
      rep ← representative office officials index;
      Ok [rep])).

Definition api_url (w : World) (zip_code : string) : string :=
  "https://www.googleapis.com/civicinfo/v2/representatives?key="
    +:+ GOOGLE_CIVIC_API_KEY w +:+ "&address=" +:+ zip_code.

(** [if not current_user.zip_code] holds for [None] and for the empty string. *)
Definition representatives (w : World) (user : User.t) : M Response :=
  match User.zip_code user with
  | None | Some EmptyString =>
      flash "Please update your zip code in your profile.";;
      mret (Redirect "index")
  | Some zip_code =>
      try_except_RequestException
        (response ← requests_get w (api_url w zip_code);
         lift (raise_for_status response);;
         data ← lift (response_json response);
         offices ← lift (py_get data "offices" (JList []));
         officials ← lift (py_get data "officials" (JList []));
         reps ← lift (collect_representatives offices officials);
         mret (Render "representatives.html" (RepresentativesArg reps)))
        (λ e,
         flash ("Error fetching representative information: " +:+ e);;
         mret (Redirect "index"))
  end.

(** [str(message)] inside the f-string *)
Definition str (text : option string) : string := default "None" text.

Definition contact_rep (rep_name : string) (request : Request) (user : User.t) : M Response :=
  match method request with
  | POST =>
      let message := form_get request "message" in
      flash ("Message sent to " +:+ rep_name +:+ ": " +:+ str message);;
      mret (Redirect "representatives")
  | GET => mret (Render "contact_rep.html" (RepNameArg rep_name))
  end.

(** ** The URL map *)

Inductive Route :=
| route_index
| route_register
| route_login
| route_logout
| route_create_post
| route_like_post (post_id : Z)
| route_add_comment (post_id : Z)
| route_civic_quiz
| route_representatives
| route_contact_rep (rep_name : string).

(** The [methods] of each [@app.route]; a route without the argument
    answers GET only. *)
Definition allows (route : Route) (m : Method) : bool :=
  match route, m with
  | (route_register | route_login | route_civic_quiz | route_contact_rep _), _ => true
  | (route_create_post | route_add_comment _), POST => true
  | (route_create_post | route_add_comment _), GET => false
  | _, GET => true
  | _, POST => false
  end.

Definition dispatch (w : World) (route : Route) (request : Request) : M Response :=
  if allows route (method request) then
    match route with
    | route_index => login_required index
    | route_register => register w request
    | route_login => login request
    | route_logout => login_required logout
    | route_create_post => login_required (create_post request)
    | route_like_post post_id => login_required (like_post post_id)
    | route_add_comment post_id => login_required (add_comment post_id request)
    | route_civic_quiz => login_required (civic_quiz request)
    | route_representatives => login_required (representatives w)
    | route_contact_rep rep_name => login_required (contact_rep rep_name request)
    end
  else mret MethodNotAllowed.

(** A run of the server: the requests are handled one after the other, each
    on the state the one before it left, whatever its outcome. *)
Definition Call : Type := World * Route * Request.

Definition handle (st : State) (call : Call) : State :=
  let '(w, route, request) := call in
  (dispatch w route request st).2.

Definition run (st : State) (calls : list Call) : State := foldl handle st calls.
End views.

(** ** Instances to run the model on concrete inputs *)

(** werkzeug's legacy [plain] method, which stores [plain$$<password>]. *)
Definition plain_hashing : Werkzeug := {|
  generate_password_hash salt password :=
    match password with
    | Some p => Ok ("plain$$" +:+ p)
    | None => Raise AttributeError
    end;
  check_password_hash pwhash password :=
    match password with
    | Some p => Ok (bool_decide (pwhash = "plain$$" +:+ p))
    | None => Raise AttributeError
    end
|}.

(** Decimal text: an optional sign and ASCII digits. *)
Fixpoint digits_value (acc : Z) (text : string) : result Z :=
  match text with
  | EmptyString => Ok acc
  | String c rest =>
      let d := (Z.of_N (Ascii.N_of_ascii c) - 48)%Z in
      if bool_decide (0 ≤ d ≤ 9)%Z then digits_value (10 * acc + d) rest
      else Raise ValueError
  end.

Definition decimal_int : PyInt := λ text,
  match text with
  | EmptyString | String "-"%char EmptyString | String "+"%char EmptyString =>
      Raise ValueError
  | String "-"%char rest => result_map Z.opp (digits_value 0 rest)
  | String "+"%char rest => digits_value 0 rest
  | _ => digits_value 0 text
  end.

Global Instance spec_float_eq_dec : EqDecision spec_float.
Proof. solve_decision. Defined.

Global Instance Exn_eq_dec : EqDecision Exn.
Proof. solve_decision. Defined.

Global Instance result_eq_dec `{EqDecision A} : EqDecision (result A).
Proof. solve_decision. Defined.

(** The scorer agrees with the specification on every sum of three answers
    from [lo] on, [n] sums in a row. *)
Definition scores_agree (lo n : Z) : bool :=
  forallb (λ s, bool_decide (calculate_civic_engagement_score [s; 0; 0]%Z
                             = Ok (spec_score [s; 0; 0]%Z)))
          (seqZ lo n).

(** ** Predicates on the store *)

(** No account has the handle, or the contact address, yet. *)
Definition handle_fresh (h : string) (d : Db) : Prop :=
  Forall (λ u, User.username u ≠ h) (users d).

Definition email_fresh (e : string) (d : Db) : Prop :=
  Forall (λ u, User.email u ≠ e) (users d).

(** The like counter of the post with the given id, if there is one. *)
Definition likes_of (d : Db) (post_id : Z) : option Z :=
  (λ found, Post.likes found.2) <$> post_row d post_id.

(** A computation that leaves the table of posts as it found it. *)
Definition keeps_posts {A} (m : M A) : Prop :=
  ∀ st, posts (db (m st).2) = posts (db st).

(** The three ways a request can leave the table of posts: as it was, with
    one new post without likes at its end, or with one more like on the post
    that a lookup by id finds. *)
Inductive posts_step (l : list Post.t) : list Post.t → Prop :=
| posts_kept : posts_step l l
| posts_created c user_id :
    posts_step l (l ++ [Post.mk (next_id (Post.id <$> l)) c user_id 0])
| posts_liked post_id i post :
    list_find (λ p, Post.id p = post_id) l = Some (i, post) →
    posts_step l (<[i := liked post]> l).

(** The server after [init_db()], before any request. *)
Definition started : State := mkState init_db None [] [].

(** ** Sample data *)

Definition ada : User.t := User.mk 1 "ada" "ada@example.org" "plain$$lovelace" (Some "02139").

Definition one_account : State := mkState (mkDb [ada] [] []) None [] [].

Definition offline : World :=
  mkWorld "test-key" "c2FsdA" (λ _ _, TransportFailure "Connection refused").

Definition registration (h e p : string) : Request :=
  mkRequest POST [("username", h); ("email", e); ("password", p); ("zip_code", "10001")].

Definition credentials (h p : string) : Request :=
  mkRequest POST [("username", h); ("password", p)].

Definition grace : User.t := User.mk 2 "grace" "grace@example.org" "plain$$hopper" None.

(** A network that answers every request with the given status line and body. *)
Definition answering (status : Z) (phrase : string) (content : Body) : World :=
  mkWorld "test-key" "c2FsdA"
          (λ _ address, Responded (mkHttpResponse status phrase address content)).

Definition two_officials : Json :=
  JDict [("offices", JList [JDict [("name", JStr "Senator");
                                   ("officialIndices", JList [JInt 0; JInt 1])]]);
         ("officials", JList [JDict [("name", JStr "A. Lincoln"); ("party", JStr "R")];
                              JDict [("name", JStr "S. Douglas");
                                     ("phones", JList [JStr "555-0100"])]])].

Definition post_form (text : string) : Request :=
  mkRequest POST [("content", text)].

Definition one_post : State :=
  mkState (mkDb [ada] [Post.mk 1 "hello" 1 0] []) (Some 1%Z) [] [].

Definition like (post_id : Z) : World * Route * Request :=
  (offline, route_like_post post_id, mkRequest GET []).

(** An office that names a sixth official where there is one. *)
Definition one_official_short : Json :=
  JDict [("offices", JList [JDict [("name", JStr "Mayor");
                                   ("officialIndices", JList [JInt 5])]]);
         ("officials", JList [JDict [("name", JStr "A. Lincoln")]])].

Definition senate : list (string * Json) :=
  [("name", JStr "Senator"); ("officialIndices", JList [JInt 0; JInt 1])].

Definition lincoln : list (string * Json) :=
  [("name", JStr "A. Lincoln"); ("party", JStr "R")].

Definition douglas : list (string * Json) :=
  [("name", JStr "S. Douglas"); ("phones", JList [JStr "555-0100"])].

(** A first visit: an account, a login, a post, two likes. *)
Definition first_visit : list (World * Route * Request) :=
  [(offline, route_register, registration "ada" "ada@example.org" "lovelace");
   (offline, route_login, credentials "ada" "lovelace");
   (offline, route_create_post, post_form "hello");
   like 1; like 1].

(** ** Predicates on the whole server *)

(** A computation that leaves one part [f] of the state as it found it. *)
Definition keeps {A B} (f : State → B) (m : M A) : Prop :=
  ∀ st, f (m st).2 = f st.

(** The routes behind [@login_required]. *)
Definition protected (route : Route) : bool :=
  match route with
  | route_register | route_login => false
  | _ => true
  end.

(** The ways a request can leave the tables: as they were, with one more
    account whose handle and contact address were free, with one more post
    or comment of an account of the table, or with one more like. *)
Inductive db_step (d : Db) : Db → Prop :=
| db_kept : db_step d d
| db_registered h e pwhash zip_code :
    handle_fresh h d →
    email_fresh e d →
    db_step d (mkDb (users d ++ [User.mk (next_id (User.id <$> users d)) h e pwhash zip_code])
                    (posts d) (comments d))
| db_posted c user :
    user ∈ users d →
    db_step d (mkDb (users d)
                    (posts d ++ [Post.mk (next_id (Post.id <$> posts d)) c (User.id user) 0])
                    (comments d))
| db_liked post_id i post :
    post_row d post_id = Some (i, post) →
    db_step d (commit_like i post d)
| db_commented c user post_id :
    user ∈ users d →
    db_step d (mkDb (users d) (posts d)
                    (comments d
                       ++ [Comment.mk (next_id (Comment.id <$> comments d)) c (User.id user)
                                      post_id])).

(** What the schema promises of the accounts: handles, contact addresses and
    ids are each pairwise distinct. *)
Definition users_wf (d : Db) : Prop :=
  NoDup (User.username <$> users d)
  ∧ NoDup (User.email <$> users d)
  ∧ NoDup (User.id <$> users d).


(** A post as it was, but for likes it has gained. *)
Definition same_post (p p' : Post.t) : Prop :=
  Post.id p' = Post.id p
  ∧ Post.content p' = Post.content p
  ∧ Post.user_id p' = Post.user_id p
  ∧ (Post.likes p ≤ Post.likes p')%Z.

(** Tables that have only grown: the accounts and the comments of [d] are
    the first ones of [d'], unchanged, and so are the posts up to likes. *)
Definition db_grows (d d' : Db) : Prop :=
  users d `prefix_of` users d'
  ∧ comments d `prefix_of` comments d'
  ∧ ∃ kept new, posts d' = kept ++ new ∧ Forall2 same_post (posts d) kept.

(** Whether a score lies between [0.0] and [100.0]. *)
Definition score_within (x : spec_float) : bool :=
  SFleb (Float64.tenths 0) x && SFleb x (Float64.tenths 1000).

(** On every sum of three answers from [lo] on, [n] sums in a row, the score
    is within [0.0] and [100.0] exactly when the sum is within [0] and [3]. *)
Definition ranges_agree (lo n : Z) : bool :=
  forallb (λ s, match calculate_civic_engagement_score [s; 0; 0]%Z with
                | Ok x => bool_decide (score_within x = bool_decide (0 ≤ s ≤ 3)%Z)
                | Raise _ => false
                end)
          (seqZ lo n).

(** A field of a JSON object, or its default. *)
Definition field (items : list (string * Json)) (key : string) (default_value : Json) : Json :=
  default default_value (dict_lookup items key).

(** The representative of an official in an office. *)
Definition rep_of (office official : list (string * Json)) : Representative :=
  mkRep (field official "name" JNull) (field office "name" JNull)
        (field official "party" JNull) (field official "phones" (JList []))
        (field official "urls" (JList [])) (field official "emails" (JList []))
        (field official "photoUrl" JNull).

(** An office whose [officialIndices] are the positions [indices], all of
    them positions of the list of officials. *)
Definition office_ok (officials : list (list (string * Json)))
    (office : list (string * Json)) (indices : list nat) : Prop :=
  dict_lookup office "officialIndices" = Some (JList ((λ i, JInt (Z.of_nat i)) <$> indices))
  ∧ Forall (λ i, i < length officials) indices.

(** The lines of [representatives] between [response.json()] and
    [render_template]. *)
Definition reshape (data : Json) : result (list Representative) :=
  offices ← py_get data "offices" (JList []);
  officials ← py_get data "officials" (JList []);
  collect_representatives offices officials.

(** The exceptions the [except] clause of [representatives] lets through. *)
Definition uncaught (e : Exn) : Prop :=
  match e with
  | RequestException _ => False
  | _ => True
  end.

(** Unfolding the handler monad down to the state transformer it is. *)
Ltac unfold_M :=
  unfold mbind, M_bind, mret, M_ret, lift, gets, query, flash, commit, login_user,
    logout_user.

(** * Properties *)

(** ** The quiz scorer *)

Section scorer.
Local Open Scope Z_scope.

(** The literals of the specification, bit for bit as CPython reads them. *)
Example literal_100_0 : Float64.tenths 1000 = S754_finite false 7036874417766400 (-46).
Proof. reflexivity. Qed.

Example literal_66_7 : Float64.tenths 667 = S754_finite false 4693595236650189 (-46).
Proof. reflexivity. Qed.

Example literal_0_0 : Float64.tenths 0 = S754_zero false.
Proof. reflexivity. Qed.

(** Three answers count through their sum only. *)
Lemma score_of_three a1 a2 a3 :
  calculate_civic_engagement_score [a1; a2; a3]
  = calculate_civic_engagement_score [a1 + a2 + a3; 0; 0].
Proof.
  unfold calculate_civic_engagement_score, sum. cbn [foldr length].
  by replace (a1 + (a2 + (a3 + 0))) with (a1 + a2 + a3 + (0 + (0 + 0))) by lia.
Qed.

Lemma spec_score_of_three a1 a2 a3 :
  spec_score [a1; a2; a3] = spec_score [a1 + a2 + a3; 0; 0].
Proof.
  unfold spec_score, sum. cbn [foldr length].
  by replace (a1 + (a2 + (a3 + 0))) with (a1 + a2 + a3 + (0 + (0 + 0))) by lia.
Qed.

Lemma scores_agree_sound lo n s :
  scores_agree lo n = true →
  lo ≤ s < lo + n →
  calculate_civic_engagement_score [s; 0; 0] = Ok (spec_score [s; 0; 0]).
Proof.
  unfold scores_agree. rewrite forallb_forall. intros Hall Hs.
  eapply bool_decide_eq_true_1, Hall, list_elem_of_In, elem_of_seqZ, Hs.
Qed.

Lemma scores_agree_upto_3000 : scores_agree (-3000) 6001 = true.
Proof. vm_cast_no_check (eq_refl true). Qed.

Lemma score_of_sum s :
  -3000 ≤ s ≤ 3000 →
  calculate_civic_engagement_score [s; 0; 0] = Ok (spec_score [s; 0; 0]).
Proof.
  intros Hs. apply (scores_agree_sound (-3000) 6001 s scores_agree_upto_3000). lia.
Qed.


(** A quiz with more than a float can hold has no score at all. *)
Example score_overflow :
  calculate_civic_engagement_score [10 ^ 400; 0; 0] = Raise OverflowError.
Proof. vm_compute. reflexivity. Qed.
End scorer.

Section quiz.
Context {pyint : PyInt}.
Local Open Scope Z_scope.

(** The quiz view reads the form only: it leaves the state as it is, and
    its outcome is the same for every state and every user. *)
Lemma civic_quiz_pure request user user' st st' :
  (civic_quiz request user st).2 = st
  ∧ (civic_quiz request user st).1 = (civic_quiz request user' st').1.
Proof.
  unfold civic_quiz. destruct (method request); [done|]. unfold_M.
  destruct (answer request "answer1") as [a1|]; [|done].
  destruct (answer request "answer2") as [a2|]; [|done].
  destruct (answer request "answer3") as [a3|]; [|done].
  generalize (calculate_civic_engagement_score [a1; a2; a3]).
  intros [score|e]; split; reflexivity.
Qed.

(** C2 (as amended). For three answers between -1000 and 1000 each, the
    scorer returns [100 * sum / count] rounded to one decimal place, as the
    float nearest to that decimal; [score([1,1,1])] is [100.0],
    [score([0,0,0])] is [0.0] and [score([1,0,1])] is [66.7]; the score is a
    function of the answers alone: equal answers give equal outcomes, and
    the quiz view neither reads nor changes the state. *)
Theorem scorer_rounds_to_one_decimal :
  (∀ a1 a2 a3,
     -1000 ≤ a1 ≤ 1000 → -1000 ≤ a2 ≤ 1000 → -1000 ≤ a3 ≤ 1000 →
     calculate_civic_engagement_score [a1; a2; a3] = Ok (spec_score [a1; a2; a3]))
  ∧ calculate_civic_engagement_score [1; 1; 1] = Ok (Float64.tenths 1000)
  ∧ calculate_civic_engagement_score [0; 0; 0] = Ok (Float64.tenths 0)
  ∧ calculate_civic_engagement_score [1; 0; 1] = Ok (Float64.tenths 667)
  ∧ (∀ answers answers',
       answers = answers' →
       calculate_civic_engagement_score answers = calculate_civic_engagement_score answers')
  ∧ (∀ request user user' st st',
       (civic_quiz request user st).2 = st
       ∧ (civic_quiz request user st).1 = (civic_quiz request user' st').1).
Proof.
  split_and!.
  - intros a1 a2 a3 H1 H2 H3.
    rewrite score_of_three, spec_score_of_three. apply score_of_sum. lia.
  - vm_compute. reflexivity.
  - vm_compute. reflexivity.
  - vm_compute. reflexivity.
  - intros answers ? <-. reflexivity.
  - apply civic_quiz_pure.
Qed.

End quiz.

(** The scorer on a vector whose sum no longer fits the precision of the
    intermediate float: the code answers [333333333333366.6], the rounded
    value of [100 * sum / count] is [333333333333366.7]. *)
Lemma scorer_off_by_a_tenth :
  calculate_civic_engagement_score [10000000000001; 0; 0]%Z
    = Ok (Float64.tenths 3333333333333666)
  ∧ spec_score [10000000000001; 0; 0]%Z = Float64.tenths 3333333333333667
  ∧ calculate_civic_engagement_score [10000000000001; 0; 0]%Z
    ≠ Ok (spec_score [10000000000001; 0; 0]%Z).
Proof.
  split_and!.
  - vm_compute. reflexivity.
  - vm_compute. reflexivity.
  - vm_compute. discriminate.
Qed.

Lemma scorer_rounds_to_one_decimal_witness :
  calculate_civic_engagement_score [1; 0; 1]%Z = Ok (spec_score [1; 0; 1]%Z).
Proof.
  apply (proj1 (scorer_rounds_to_one_decimal (pyint := decimal_int))); lia.
Defined.


(** ** Accounts: registration and login *)

Section accounts.
Context {werkzeug : Werkzeug}.

Lemma user_by_username_None d h :
  user_by_username d (Some h) = None ↔ handle_fresh h d.
Proof.
  unfold user_by_username, handle_fresh.
  rewrite fmap_None. apply list_find_None.
Qed.

(** The row a registration appends is the one a later lookup of its handle finds. *)
Lemma user_by_username_appended d h account :
  handle_fresh h d →
  User.username account = h →
  snd <$> list_find (λ u, User.username u = h) (users d ++ [account]) = Some account.
Proof.
  intros Hfresh Hname.
  rewrite list_find_app_r by (by apply list_find_None).
  simpl. by rewrite decide_True.
Qed.

Lemma commit_user_fresh d h e pwhash zip_code :
  handle_fresh h d →
  email_fresh e d →
  commit_user (Some h) (Some e) pwhash zip_code d
  = Ok (mkDb (users d ++ [User.mk (next_id (User.id <$> users d)) h e pwhash zip_code])
             (posts d) (comments d)).
Proof.
  intros Hh He. unfold commit_user. rewrite decide_False; [done|].
  intros (u & Hu & [?|?])%Exists_exists.
  - by eapply (proj1 (Forall_forall _ _) Hh).
  - by eapply (proj1 (Forall_forall _ _) He).
Qed.

(** A commit that goes through appends one row and keeps the others. *)
Lemma commit_user_Ok username email pwhash zip_code d d' :
  commit_user username email pwhash zip_code d = Ok d' →
  ∃ h e account,
    username = Some h ∧ email = Some e ∧ User.username account = h
    ∧ d' = mkDb (users d ++ [account]) (posts d) (comments d).
Proof.
  unfold commit_user. destruct username as [h|], email as [e|]; try done.
  case_decide; [done|]. intros [= <-].
  by exists h, e, (User.mk (next_id (User.id <$> users d)) h e pwhash zip_code).
Qed.

(** The two branches of [register] on a submitted form. *)
Lemma register_duplicate w request st u :
  method request = POST →
  user_by_username (db st) (form_get request "username") = Some u →
  register w request st
  = (Ok (Redirect "register"),
     mkState (db st) (session st) (flashes st ++ ["Username already exists"])
             (http_log st)).
Proof.
  intros Hpost Hu. unfold register. rewrite Hpost. unfold_M. by rewrite Hu.
Qed.

Lemma register_new w request st :
  method request = POST →
  user_by_username (db st) (form_get request "username") = None →
  register w request st
  = match generate_password_hash (gen_salt w) (form_get request "password") with
    | Ok pwhash =>
        match commit_user (form_get request "username") (form_get request "email")
                          pwhash (form_get request "zip_code") (db st) with
        | Ok d => (Ok (Redirect "login"),
                   mkState d (session st) (flashes st) (http_log st))
        | Raise e => (Raise e, st)
        end
    | Raise e => (Raise e, st)
    end.
Proof.
  intros Hpost Hu. unfold register. rewrite Hpost. unfold_M. rewrite Hu.
  destruct (generate_password_hash _ _); [|done].
  by destruct (commit_user _ _ _ _ _).
Qed.

Section sound.
Context {sound : WerkzeugSound}.

(** C1 (as amended). A registration that carries a handle, a contact
    address and a password, with a handle and a contact address that no
    account has yet, succeeds: it appends the account with the hashed
    password and sends the caller to the login page; a login with that
    handle and that password on the store so obtained then succeeds and
    opens the session of the new account. *)
Theorem register_then_login w request st h e p :
  method request = POST →
  form_get request "username" = Some h →
  form_get request "email" = Some e →
  form_get request "password" = Some p →
  handle_fresh h (db st) →
  email_fresh e (db st) →
  ∃ pwhash,
    generate_password_hash (gen_salt w) (Some p) = Ok pwhash
    ∧ let account := User.mk (next_id (User.id <$> users (db st))) h e pwhash
                             (form_get request "zip_code") in
      let d1 := mkDb (users (db st) ++ [account]) (posts (db st)) (comments (db st)) in
      register w request st
      = (Ok (Redirect "login"), mkState d1 (session st) (flashes st) (http_log st))
      ∧ ∀ request' st',
          method request' = POST →
          form_get request' "username" = Some h →
          form_get request' "password" = Some p →
          db st' = d1 →
          login request' st'
          = (Ok (Redirect "index"),
             mkState d1 (Some (User.id account)) (flashes st') (http_log st')).
Proof.
  intros Hpost Hh He Hp Hfresh Hefresh.
  destruct (generate_returns (gen_salt w) p) as [pwhash Hgen].
  exists pwhash. split; [done|]. simpl. split.
  - unfold register. rewrite Hpost, Hh, He, Hp. unfold_M.
    rewrite (proj2 (user_by_username_None _ _) Hfresh), Hgen.
    by rewrite commit_user_fresh.
  - intros request' st' Hpost' Hh' Hp' Hdb.
    unfold login. rewrite Hpost', Hh', Hp'. unfold_M.
    rewrite Hdb. unfold user_by_username. cbn [users].
    rewrite (user_by_username_appended _ h) by done. simpl.
    rewrite (check_generated _ _ _ Hgen). simpl. by rewrite Hdb.
Qed.
End sound.

(** Every failed login, whatever its cause, flashes the same message and
    renders the login page again. *)
Lemma login_failure request st :
  method request = POST →
  (user_by_username (db st) (form_get request "username") = None
   ∨ ∃ u, user_by_username (db st) (form_get request "username") = Some u
          ∧ check_password_hash (User.password u) (form_get request "password") = Ok false) →
  login request st
  = (Ok (Render "login.html" NoArgs),
     mkState (db st) (session st) (flashes st ++ ["Invalid username or password"])
             (http_log st)).
Proof.
  intros Hpost Hfail. unfold login. rewrite Hpost. unfold_M.
  destruct Hfail as [->|(u & -> & ->)]; reflexivity.
Qed.

(** A login attempt for a handle no account has and a login attempt with a
    password that the verification rejects (it returns [False]) have the
    same outcome: the same response, the same single flashed message
    [Invalid username or password], the session and the store untouched. *)
Theorem login_failures_indistinguishable st unknown wrong u :
  method unknown = POST →
  method wrong = POST →
  user_by_username (db st) (form_get unknown "username") = None →
  user_by_username (db st) (form_get wrong "username") = Some u →
  check_password_hash (User.password u) (form_get wrong "password") = Ok false →
  login unknown st = login wrong st
  ∧ login wrong st
    = (Ok (Render "login.html" NoArgs),
       mkState (db st) (session st) (flashes st ++ ["Invalid username or password"])
               (http_log st)).
Proof.
  intros Hpost1 Hpost2 Hnone Hsome Hcheck.
  rewrite (login_failure unknown), (login_failure wrong) by eauto. done.
Qed.

(** C3. The two causes of a failed login are told apart by a request
    without a password field: the form's password goes to
    [check_password_hash] as it is, [None] included, and only when an account
    has the handle. When the verification raises on [None], the login raises
    for a known handle, with nothing flashed, and flashes [Invalid username
    or password] for an unknown one: the two outcomes differ. *)
Theorem login_without_password_tells_handles_apart st known unknown u e :
  method known = POST →
  method unknown = POST →
  form_get known "password" = None →
  form_get unknown "password" = None →
  user_by_username (db st) (form_get known "username") = Some u →
  user_by_username (db st) (form_get unknown "username") = None →
  check_password_hash (User.password u) None = Raise e →
  login known st = (Raise e, st)
  ∧ login unknown st
    = (Ok (Render "login.html" NoArgs),
       mkState (db st) (session st) (flashes st ++ ["Invalid username or password"])
               (http_log st))
  ∧ login known st ≠ login unknown st.
Proof.
  intros Hpost1 Hpost2 Hpw1 Hpw2 Hknown Hunknown Hcheck.
  assert (login known st = (Raise e, st)) as ->.
  { unfold login. rewrite Hpost1, Hpw1. unfold_M. by rewrite Hknown, Hcheck. }
  rewrite (login_failure unknown) by eauto. done.
Qed.

(** The login view has no handler of its own around the verification: an
    exception of [check_password_hash] leaves the view as it is. *)
Lemma login_check_raises request st u e :
  method request = POST →
  user_by_username (db st) (form_get request "username") = Some u →
  check_password_hash (User.password u) (form_get request "password") = Raise e →
  login request st = (Raise e, st).
Proof.
  intros Hpost Hu Hcheck. unfold login. rewrite Hpost. unfold_M.
  by rewrite Hu, Hcheck.
Qed.

(** C4 (as amended). When a registration has been handled to its end,
    accepted or turned down, a second registration with the same handle is
    turned down: it flashes [Username already exists], sends the caller
    back to the form and leaves the store as it is, whatever its other
    fields are. *)
Theorem second_registration_rejected w1 w2 request1 request2 st h :
  method request1 = POST →
  method request2 = POST →
  form_get request1 "username" = Some h →
  form_get request2 "username" = Some h →
  returns (register w1 request1 st).1 →
  let st1 := (register w1 request1 st).2 in
  register w2 request2 st1
  = (Ok (Redirect "register"),
     mkState (db st1) (session st1) (flashes st1 ++ ["Username already exists"])
             (http_log st1)).
Proof.
  intros Hpost1 Hpost2 Hh1 Hh2.
  destruct (user_by_username (db st) (Some h)) as [u|] eqn:Hu.
  - rewrite (register_duplicate w1 request1 st u) by (by rewrite ?Hh1).
    intros _. cbn [snd]. apply (register_duplicate _ _ _ u); [done|].
    by rewrite Hh2.
  - rewrite (register_new w1 request1 st) by (by rewrite ?Hh1).
    destruct (generate_password_hash _ _) as [pwhash|]; [|by intros [? [=]]].
    destruct (commit_user _ _ _ _ _) as [d'|] eqn:Hcommit; [|by intros [? [=]]].
    intros _. cbn [snd].
    apply commit_user_Ok in Hcommit as (h' & e & account & Hh' & _ & Hname & ->).
    rewrite Hh1 in Hh'. injection Hh' as <-.
    apply (register_duplicate _ _ _ account); [done|].
    rewrite Hh2. unfold user_by_username. cbn [db users].
    apply user_by_username_appended; [|done]. by apply user_by_username_None.
Qed.
End accounts.

(** ** The feed: listing, posting and liking *)

Section feed.
Local Open Scope Z_scope.

Global Instance id_desc_total : Total id_desc.
Proof. intros p q. unfold id_desc. lia. Qed.

Global Instance id_desc_trans : Transitive id_desc.
Proof. intros p q r. unfold id_desc. lia. Qed.

Lemma index_lists user st :
  index user st = (Ok (Render "index.html" (PostsArg (posts_by_id_desc (db st)))), st).
Proof. reflexivity. Qed.

Lemma create_post_appends request user st c :
  form_get request "content" = Some c →
  create_post request user st
  = (Ok (Redirect "index"),
     mkState (mkDb (users (db st))
                   (posts (db st)
                      ++ [Post.mk (next_id (Post.id <$> posts (db st))) c (User.id user) 0])
                   (comments (db st)))
             (session st) (flashes st) (http_log st)).
Proof. intros Hc. unfold create_post. rewrite Hc. reflexivity. Qed.

(** C5. The feed lists every stored post, each once, by descending
    identifier; on a store without posts, after three posts have been
    created the feed is the third, the second, the first. *)
Theorem index_newest_first :
  (∀ user st, ∃ listed,
      index user st = (Ok (Render "index.html" (PostsArg listed)), st)
      ∧ listed ≡ₚ posts (db st)
      ∧ StronglySorted id_desc listed)
  ∧ (∀ st author1 author2 author3 request1 request2 request3 c1 c2 c3 reader,
      posts (db st) = [] →
      form_get request1 "content" = Some c1 →
      form_get request2 "content" = Some c2 →
      form_get request3 "content" = Some c3 →
      let st1 := (create_post request1 author1 st).2 in
      let st2 := (create_post request2 author2 st1).2 in
      let st3 := (create_post request3 author3 st2).2 in
      index reader st3
      = (Ok (Render "index.html"
               (PostsArg [Post.mk 3 c3 (User.id author3) 0;
                          Post.mk 2 c2 (User.id author2) 0;
                          Post.mk 1 c1 (User.id author1) 0])),
         st3)).
Proof.
  split.
  - intros user st. exists (posts_by_id_desc (db st)). split_and!.
    + apply index_lists.
    + apply merge_sort_Permutation.
    + apply StronglySorted_merge_sort; apply _.
  - intros st author1 author2 author3 request1 request2 request3 c1 c2 c3 reader
      Hempty H1 H2 H3.
    rewrite (create_post_appends request1 _ _ c1) by done. cbn [snd].
    rewrite (create_post_appends request2 _ _ c2) by done. cbn [snd].
    rewrite (create_post_appends request3 _ _ c3) by done. cbn [snd].
    rewrite index_lists. unfold posts_by_id_desc. cbn [db posts]. rewrite Hempty.
    reflexivity.
Qed.

(** *** Likes *)

Lemma post_get_Ok d post_id found :
  post_get d post_id = Ok found → sqlite_integer post_id ∧ found = post_row d post_id.
Proof. unfold post_get. case_decide; [|done]. by intros [= <-]. Qed.


Lemma like_post_found post_id user st i post :
  post_get (db st) post_id = Ok (Some (i, post)) →
  like_post post_id user st
  = (Ok (Redirect "index"),
     mkState (mkDb (users (db st)) (<[i := liked post]> (posts (db st))) (comments (db st)))
             (session st) (flashes st) (http_log st)).
Proof. intros Hget. unfold like_post. unfold_M. by rewrite Hget. Qed.

Lemma like_post_missing post_id user st :
  post_get (db st) post_id = Ok None →
  like_post post_id user st = (Ok (Redirect "index"), st).
Proof. intros Hget. unfold like_post. unfold_M. by rewrite Hget. Qed.

(** The view has no handler around the lookup: what it raises leaves the view. *)
Lemma like_post_raises post_id user st e :
  post_get (db st) post_id = Raise e →
  like_post post_id user st = (Raise e, st).
Proof. intros Hget. unfold like_post. unfold_M. by rewrite Hget. Qed.

(** Looking a post up by the id of the row that was just liked finds
    the liked row, where it was. *)
Lemma post_get_liked (l : list Post.t) post_id i post :
  list_find (λ p, Post.id p = post_id) l = Some (i, post) →
  list_find (λ p, Post.id p = post_id) (<[i := liked post]> l) = Some (i, liked post).
Proof.
  intros (Hi & Hid & Hleast)%list_find_Some.
  apply list_find_insert_Some. right; left.
  split_and!; [done | done | by eapply lookup_lt_Some | done | done].
Qed.

(** ... and looking up any other id finds what it found before. *)
Lemma post_get_other (l : list Post.t) post_id other i post found :
  other ≠ post_id →
  list_find (λ p, Post.id p = post_id) l = Some (i, post) →
  list_find (λ p, Post.id p = other) l = Some found →
  list_find (λ p, Post.id p = other) (<[i := liked post]> l) = Some found.
Proof.
  intros Hne (Hi & Hid & _)%list_find_Some Hfound. destruct found as [j q].
  pose proof Hfound as (Hj & Hq & _)%list_find_Some.
  apply list_find_insert_Some.
  destruct (decide (j < i)%nat); [by left|].
  assert (i ≠ j) by (intros ->; congruence).
  right; right; left. split_and!; [lia | simpl; congruence | done |].
  intros z Hz. congruence.
Qed.

Lemma posts_step_likes_of l l' users1 comments1 users2 comments2 post_id n :
  posts_step l l' →
  likes_of (mkDb users1 l comments1) post_id = Some n →
  ∃ n', likes_of (mkDb users2 l' comments2) post_id = Some n' ∧ n ≤ n'.
Proof.
  unfold likes_of, post_row. cbn [posts].
  intros Hstep ([j q] & Hfind & ->)%fmap_Some. cbn [snd].
  destruct Hstep as [|c user_id|liked_id i post Hliked].
  - exists (Post.likes q). by rewrite Hfind.
  - exists (Post.likes q). by erewrite list_find_app_l.
  - destruct (decide (post_id = liked_id)) as [->|Hne].
    + assert ((j, q) = (i, post)) as [= -> ->] by congruence.
      exists (Post.likes post + 1). split; [|lia].
      by erewrite post_get_liked.
    + exists (Post.likes q).
      by rewrite (post_get_other l liked_id post_id i post (j, q) Hne Hliked Hfind).
Qed.


(** *** Which requests touch the posts *)

Lemma keeps_ret {A} (a : A) : keeps_posts (mret a).
Proof. done. Qed.

Lemma keeps_bind {A B} (m : M A) (k : A → M B) :
  keeps_posts m → (∀ a, keeps_posts (k a)) → keeps_posts (m ≫= k).
Proof.
  intros Hm Hk st. unfold mbind, M_bind. specialize (Hm st).
  destruct (m st) as [[a|e] st']; cbn [snd] in *; [|done].
  by rewrite Hk.
Qed.

Lemma keeps_lift {A} (r : result A) : keeps_posts (lift r).
Proof. done. Qed.

Lemma keeps_gets {A} (f : State → A) : keeps_posts (gets f).
Proof. done. Qed.

Lemma keeps_flash message : keeps_posts (flash message).
Proof. done. Qed.

Lemma keeps_login_user user : keeps_posts (login_user user).
Proof. done. Qed.

Lemma keeps_logout_user : keeps_posts logout_user.
Proof. done. Qed.

Lemma keeps_requests_get w address : keeps_posts (requests_get w address).
Proof. intros st. unfold requests_get. by destruct (network w _ _). Qed.

Lemma keeps_try {A} (body : M A) handler :
  keeps_posts body → (∀ e, keeps_posts (handler e)) →
  keeps_posts (try_except_RequestException body handler).
Proof.
  intros Hbody Hhandler st. unfold try_except_RequestException.
  specialize (Hbody st). destruct (body st) as [[a|[]] st']; cbn [snd] in *; try done.
  by rewrite Hhandler.
Qed.

Lemma keeps_commit tx :
  (∀ d d', tx d = Ok d' → posts d' = posts d) → keeps_posts (commit tx).
Proof.
  intros Htx st. unfold commit. destruct (tx (db st)) as [d'|] eqn:Hd; [|done].
  by apply Htx.
Qed.

Lemma commit_user_posts username email pwhash zip_code d d' :
  commit_user username email pwhash zip_code d = Ok d' → posts d' = posts d.
Proof. by intros (? & ? & ? & _ & _ & _ & ->)%commit_user_Ok. Qed.

Lemma commit_comment_posts content user_id post_id d d' :
  commit_comment content user_id post_id d = Ok d' → posts d' = posts d.
Proof.
  unfold commit_comment. case_decide; [|done]. destruct content; [|done]. by intros [= <-].
Qed.

Create HintDb keeps discriminated.
Hint Resolve keeps_ret keeps_lift keeps_gets keeps_flash keeps_login_user
  keeps_logout_user keeps_requests_get commit_user_posts commit_comment_posts : keeps.

Ltac keeps :=
  repeat first
    [ apply keeps_bind; [|intros ?]
    | apply keeps_try; [|intros ?]
    | apply keeps_commit; intros ? ?
    | match goal with
      | |- keeps_posts (match ?x with _ => _ end) => destruct x
      end
    | solve [eauto with keeps] ].

Section views_keep.
Context {werkzeug : Werkzeug} {pyint : PyInt}.

Lemma keeps_index user : keeps_posts (index user).
Proof. unfold index. keeps. Qed.

Lemma keeps_register w request : keeps_posts (register w request).
Proof. unfold register. keeps. Qed.

Lemma keeps_login request : keeps_posts (login request).
Proof. unfold login. keeps. Qed.

Lemma keeps_logout user : keeps_posts (logout user).
Proof. unfold logout. keeps. Qed.

Lemma keeps_add_comment post_id request user :
  keeps_posts (add_comment post_id request user).
Proof. unfold add_comment. keeps. Qed.

Lemma keeps_civic_quiz request user : keeps_posts (civic_quiz request user).
Proof. unfold civic_quiz. keeps. Qed.

Lemma keeps_representatives w user : keeps_posts (representatives w user).
Proof. unfold representatives. keeps. Qed.

Lemma keeps_contact_rep rep_name request user :
  keeps_posts (contact_rep rep_name request user).
Proof. unfold contact_rep. keeps. Qed.
End views_keep.

Section server.
Context {werkzeug : Werkzeug} {pyint : PyInt}.

Lemma create_post_step request user st :
  posts_step (posts (db st)) (posts (db (create_post request user st).2)).
Proof.
  destruct (form_get request "content") as [c|] eqn:Hc.
  - rewrite (create_post_appends _ _ _ c) by done. apply posts_created.
  - unfold create_post, commit_post. rewrite Hc. apply posts_kept.
Qed.

Lemma like_post_step post_id user st :
  posts_step (posts (db st)) (posts (db (like_post post_id user st).2)).
Proof.
  destruct (post_get (db st) post_id) as [[[i post]|]|e] eqn:Hget.
  - rewrite (like_post_found _ _ _ i post) by done.
    apply post_get_Ok in Hget as [_ Hrow]. by eapply posts_liked.
  - rewrite like_post_missing by done. apply posts_kept.
  - rewrite (like_post_raises _ _ _ e) by done. apply posts_kept.
Qed.

Lemma login_required_step view st :
  (∀ user, posts_step (posts (db st)) (posts (db (view user st).2))) →
  posts_step (posts (db st)) (posts (db (login_required view st).2)).
Proof.
  intros Hview. unfold login_required. destruct (current_user st); [done|].
  apply posts_kept.
Qed.

Lemma keeps_posts_step {A} (m : M A) st :
  keeps_posts m → posts_step (posts (db st)) (posts (db (m st).2)).
Proof. intros ->. apply posts_kept. Qed.

Lemma dispatch_step w route request st :
  posts_step (posts (db st)) (posts (db (dispatch w route request st).2)).
Proof.
  unfold dispatch. destruct (allows route (method request)); [|apply posts_kept].
  destruct route; try apply login_required_step; intros;
    auto using create_post_step, like_post_step, keeps_posts_step, keeps_index,
      keeps_register, keeps_login, keeps_logout, keeps_add_comment,
      keeps_civic_quiz, keeps_representatives, keeps_contact_rep.
Qed.

Lemma run_likes_of calls : ∀ st post_id n,
  likes_of (db st) post_id = Some n →
  ∃ n', likes_of (db (run st calls)) post_id = Some n' ∧ n ≤ n'.
Proof.
  induction calls as [|[[w route] request] calls IH]; intros st post_id n Hn.
  - exists n. done.
  - cbn [run foldl handle].
    destruct (posts_step_likes_of _ _ (users (db st)) (comments (db st))
                (users (db (dispatch w route request st).2))
                (comments (db (dispatch w route request st).2))
                post_id n (dispatch_step w route request st)) as (n1 & Hn1 & Hle).
    { by destruct (db st). }
    destruct (IH (dispatch w route request st).2 post_id n1) as (n' & Hn' & Hle').
    { by destruct (db (dispatch w route request st).2). }
    exists n'. split; [done | lia].
Qed.


End server.
End feed.

(** ** The representative lookup *)

Section lookup.
Local Open Scope Z_scope.

Lemma append_nonempty (s : string) c t : s +:+ String c t ≠ "".
Proof. by destruct s. Qed.

Lemma raise_for_status_error response :
  400 ≤ status_code response < 600 →
  raise_for_status response = Raise (RequestException (http_error_msg response)).
Proof.
  intros Hcode. unfold raise_for_status.
  destruct (http_error_msg response) as [|c t] eqn:Hmsg; [|done].
  exfalso. revert Hmsg. unfold http_error_msg.
  repeat case_bool_decide; try lia; apply append_nonempty.
Qed.

(** C7. When the account has no postal code on file, or an empty one, the
    lookup issues no HTTP request (the log of requests stays as it is), and
    it reports the missing postal code with a message of its own, which no
    network error has: it flashes [Please update your zip code in your
    profile.] and redirects to the feed. *)
Theorem representatives_without_zip_code w user st :
  User.zip_code user = None ∨ User.zip_code user = Some "" →
  representatives w user st
  = (Ok (Redirect "index"),
     mkState (db st) (session st)
             (flashes st ++ ["Please update your zip code in your profile."])
             (http_log st))
  ∧ ∀ e, "Please update your zip code in your profile."
         ≠ "Error fetching representative information: " +:+ e.
Proof.
  intros Hzip. split; [|done].
  unfold representatives. by destruct Hzip as [-> | ->].
Qed.

(** C8 (as amended). With a postal code on file, when the HTTP call fails
    in transport or returns an error status (400 to 599), the lookup has
    issued exactly one HTTP request, returns no representatives, and
    reports the failure with its message: it flashes [Error fetching
    representative information: ] followed by the message of the transport
    failure, or by the message of the status error, and redirects to the
    feed. *)
Theorem representatives_http_failure w user st zip_code e :
  User.zip_code user = Some zip_code →
  zip_code ≠ "" →
  (network w (http_log st) (api_url w zip_code) = TransportFailure e
   ∨ ∃ response,
       network w (http_log st) (api_url w zip_code) = Responded response
       ∧ 400 ≤ status_code response < 600
       ∧ e = http_error_msg response) →
  representatives w user st
  = (Ok (Redirect "index"),
     mkState (db st) (session st)
             (flashes st ++ ["Error fetching representative information: " +:+ e])
             (http_log st ++ [api_url w zip_code])).
Proof.
  intros Hzip Hne Hfail. unfold representatives. rewrite Hzip.
  destruct zip_code as [|c zip_code]; [done|]. set (zip := String c zip_code) in *.
  unfold try_except_RequestException, requests_get. unfold_M.
  destruct Hfail as [->|(response & -> & Hcode & ->)]; [done|].
  by rewrite raise_for_status_error.
Qed.
End lookup.

(** ** The sample hasher is sound, and the theorems at sample inputs *)

Lemma plain_hashing_sound : WerkzeugSound (werkzeug := plain_hashing).
Proof.
  split.
  - intros salt p. by eexists.
  - intros salt p pwhash [= <-]. simpl. by rewrite bool_decide_eq_true_2.
Qed.

(** A registration with a new handle and the contact address of an existing
    account is not accepted: the commit raises [IntegrityError]. *)
Lemma register_fresh_handle_taken_email :
  handle_fresh "bob" (db one_account)
  ∧ register (werkzeug := plain_hashing) offline
      (registration "bob" "ada@example.org" "hunter2") one_account
    = (Raise IntegrityError, one_account).
Proof.
  split.
  - repeat constructor. discriminate.
  - vm_compute. reflexivity.
Qed.

Lemma register_then_login_witness :
  register (werkzeug := plain_hashing) offline
    (registration "bob" "bob@example.org" "hunter2") one_account
  = (Ok (Redirect "login"),
     mkState (mkDb [ada; User.mk 2 "bob" "bob@example.org" "plain$$hunter2" (Some "10001")] [] [])
             None [] [])
  ∧ login (werkzeug := plain_hashing) (credentials "bob" "hunter2")
      (mkState (mkDb [ada; User.mk 2 "bob" "bob@example.org" "plain$$hunter2" (Some "10001")] [] [])
               None [] [])
    = (Ok (Redirect "index"),
       mkState (mkDb [ada; User.mk 2 "bob" "bob@example.org" "plain$$hunter2" (Some "10001")] [] [])
               (Some 2%Z) [] []).
Proof.
  destruct (register_then_login (sound := plain_hashing_sound) offline
              (registration "bob" "bob@example.org" "hunter2") one_account
              "bob" "bob@example.org" "hunter2")
    as (pwhash & Hgen & Hregister & Hlogin);
    [reflexivity | reflexivity | reflexivity | reflexivity
    | repeat constructor; discriminate | repeat constructor; discriminate |].
  injection Hgen as <-. split.
  - exact Hregister.
  - apply Hlogin; reflexivity.
Defined.

Lemma login_failures_indistinguishable_witness :
  login (werkzeug := plain_hashing) (credentials "eve" "lovelace") one_account
  = login (werkzeug := plain_hashing) (credentials "ada" "babbage") one_account
  ∧ login (werkzeug := plain_hashing) (credentials "ada" "babbage") one_account
    = (Ok (Render "login.html" NoArgs),
       mkState (mkDb [ada] [] []) None ["Invalid username or password"] []).
Proof.
  apply (login_failures_indistinguishable (werkzeug := plain_hashing) one_account
           (credentials "eve" "lovelace") (credentials "ada" "babbage") ada);
    reflexivity.
Defined.

(** A first registration that ends in [IntegrityError] does not reserve its
    handle: the second registration with the same handle is accepted. *)
Lemma second_registration_after_failed_first :
  form_get (registration "bob" "ada@example.org" "pw1") "username"
  = form_get (registration "bob" "bob@example.org" "pw2") "username"
  ∧ (register (werkzeug := plain_hashing) offline
       (registration "bob" "ada@example.org" "pw1") one_account).1
    = Raise IntegrityError
  ∧ register (werkzeug := plain_hashing) offline
      (registration "bob" "bob@example.org" "pw2")
      (register (werkzeug := plain_hashing) offline
         (registration "bob" "ada@example.org" "pw1") one_account).2
    = (Ok (Redirect "login"),
       mkState (mkDb [ada; User.mk 2 "bob" "bob@example.org" "plain$$pw2" (Some "10001")] [] [])
               None [] []).
Proof. split_and!; vm_compute; reflexivity. Qed.

Lemma second_registration_rejected_witness :
  register (werkzeug := plain_hashing) offline
    (registration "bob" "carol@example.org" "pw2")
    (register (werkzeug := plain_hashing) offline
       (registration "bob" "bob@example.org" "pw1") one_account).2
  = (Ok (Redirect "register"),
     mkState (mkDb [ada; User.mk 2 "bob" "bob@example.org" "plain$$pw1" (Some "10001")] [] [])
             None ["Username already exists"] []).
Proof.
  apply (second_registration_rejected (werkzeug := plain_hashing) offline offline
           (registration "bob" "bob@example.org" "pw1")
           (registration "bob" "carol@example.org" "pw2") one_account "bob");
    try reflexivity.
  by eexists.
Defined.

Lemma index_newest_first_witness :
  index ada
    (create_post (post_form "third") ada
       (create_post (post_form "second") ada
          (create_post (post_form "first") ada one_account).2).2).2
  = (Ok (Render "index.html"
           (PostsArg [Post.mk 3 "third" 1 0; Post.mk 2 "second" 1 0; Post.mk 1 "first" 1 0])),
     mkState (mkDb [ada]
                   [Post.mk 1 "first" 1 0; Post.mk 2 "second" 1 0; Post.mk 3 "third" 1 0] [])
             None [] []).
Proof.
  apply (proj2 index_newest_first one_account ada ada ada
           (post_form "first") (post_form "second") (post_form "third")
           "first" "second" "third" ada); reflexivity.
Defined.

(** The whole server from its start, through the URL map. *)
Example first_visit_runs :
  run (werkzeug := plain_hashing) (pyint := decimal_int) started first_visit
  = mkState (mkDb [User.mk 1 "ada" "ada@example.org" "plain$$lovelace" (Some "10001")]
                  [Post.mk 1 "hello" 1 2] [])
            (Some 1%Z) [] [].
Proof. vm_compute. reflexivity. Qed.

(** Without a session the feed is not shown. *)
Example anonymous_is_sent_to_login :
  dispatch (werkzeug := plain_hashing) (pyint := decimal_int)
    offline route_index (mkRequest GET []) one_account
  = (Ok (Redirect "login"),
     mkState (mkDb [ada] [] []) None ["Please log in to access this page."] []).
Proof. vm_compute. reflexivity. Qed.

(** Two likes and a like of a post that does not exist, through the URL map. *)
Example like_twice :
  posts (db (run (werkzeug := plain_hashing) (pyint := decimal_int)
               one_post [like 1; like 7; like 1]))
  = [Post.mk 1 "hello" 1 2].
Proof. vm_compute. reflexivity. Qed.

Lemma representatives_without_zip_code_witness :
  representatives offline grace one_account
  = (Ok (Redirect "index"),
     mkState (mkDb [ada] [] []) None ["Please update your zip code in your profile."] []).
Proof.
  apply (representatives_without_zip_code offline grace one_account).
  left. reflexivity.
Defined.

Lemma representatives_http_failure_witness :
  representatives offline ada one_account
  = (Ok (Redirect "index"),
     mkState (mkDb [ada] [] []) None
             ["Error fetching representative information: Connection refused"]
             ["https://www.googleapis.com/civicinfo/v2/representatives?key=test-key&address=02139"]).
Proof.
  apply (representatives_http_failure offline ada one_account "02139" "Connection refused").
  - reflexivity.
  - discriminate.
  - left. reflexivity.
Defined.

Example representatives_not_found :
  representatives (answering 404 "Not Found" (Undecodable "Expecting value")) ada one_account
  = (Ok (Redirect "index"),
     mkState (mkDb [ada] [] []) None
             ["Error fetching representative information: 404 Client Error: Not Found for url: https://www.googleapis.com/civicinfo/v2/representatives?key=test-key&address=02139"]
             ["https://www.googleapis.com/civicinfo/v2/representatives?key=test-key&address=02139"]).
Proof. vm_compute. reflexivity. Qed.

(** A status that is neither a success nor an error for [raise_for_status]:
    the lookup renders the representatives of the body and reports nothing. *)
Lemma representatives_on_status_300 :
  ¬ (200 ≤ 300 < 300)%Z
  ∧ representatives (answering 300 "Multiple Choices" (Document two_officials)) ada one_account
  = (Ok (Render "representatives.html"
           (RepresentativesArg
              [mkRep (JStr "A. Lincoln") (JStr "Senator") (JStr "R")
                     (JList []) (JList []) (JList []) JNull;
               mkRep (JStr "S. Douglas") (JStr "Senator") JNull
                     (JList [JStr "555-0100"]) (JList []) (JList []) JNull])),
     mkState (mkDb [ada] [] []) None []
             ["https://www.googleapis.com/civicinfo/v2/representatives?key=test-key&address=02139"]).
Proof. split; [lia | vm_compute; reflexivity]. Qed.

(** * The server as a whole *)

(** ** How one request changes the tables *)

Lemma keeps_mret {A B} (f : State → B) (a : A) : keeps f (mret a).
Proof. done. Qed.

Lemma keeps_mbind {A B C} (f : State → C) (m : M A) (k : A → M B) :
  keeps f m → (∀ a, keeps f (k a)) → keeps f (m ≫= k).
Proof.
  intros Hm Hk st. unfold mbind, M_bind. specialize (Hm st).
  destruct (m st) as [[a|e] st']; cbn [snd] in *; [|done].
  by rewrite Hk.
Qed.

Lemma keeps_try_except {A B} (f : State → B) (body : M A) handler :
  keeps f body → (∀ e, keeps f (handler e)) →
  keeps f (try_except_RequestException body handler).
Proof.
  intros Hbody Hhandler st. unfold try_except_RequestException.
  specialize (Hbody st). destruct (body st) as [[a|[]] st']; cbn [snd] in *; try done.
  by rewrite Hhandler.
Qed.

(** A leaf of a view: one of the primitive actions, on which the part of
    the state is read off directly. *)
Ltac keeps_leaf :=
  let st := fresh "st" in
  intros st;
  unfold requests_get, commit, commit_user, commit_post, commit_comment, flash,
    login_user, logout_user, lift, gets, query, post_get, mret, M_ret;
  repeat case_match; simplify_eq; done.

Ltac frame :=
  repeat first
    [ apply keeps_mbind; [|intros ?]
    | apply keeps_try_except; [|intros ?]
    | match goal with
      | |- keeps _ (match ?x with _ => _ end) => destruct x
      end
    | solve [keeps_leaf] ].

Section steps.
Context {werkzeug : Werkzeug} {pyint : PyInt}.
Local Open Scope Z_scope.

Lemma register_keeps_session w request : keeps session (register w request).
Proof. unfold register. frame. Qed.

Lemma register_keeps_http_log w request : keeps http_log (register w request).
Proof. unfold register. frame. Qed.

Lemma register_keeps_comments w request :
  keeps (λ st, comments (db st)) (register w request).
Proof. unfold register. frame. Qed.

Lemma login_keeps_db request : keeps db (login request).
Proof. unfold login. frame. Qed.

Lemma login_keeps_http_log request : keeps http_log (login request).
Proof. unfold login. frame. Qed.

Lemma representatives_keeps_db w user : keeps db (representatives w user).
Proof. unfold representatives. frame. Qed.

Lemma representatives_keeps_session w user : keeps session (representatives w user).
Proof. unfold representatives. frame. Qed.

Lemma contact_rep_keeps_db rep_name request user :
  keeps db (contact_rep rep_name request user).
Proof. unfold contact_rep. frame. Qed.

Lemma civic_quiz_keeps_state request user : keeps (λ st, st) (civic_quiz request user).
Proof. intros st. apply civic_quiz_pure; exact user || exact st. Qed.

Lemma commit_user_Ok_fresh username email pwhash zip_code d d' :
  commit_user username email pwhash zip_code d = Ok d' →
  ∃ h e,
    username = Some h ∧ email = Some e ∧ handle_fresh h d ∧ email_fresh e d
    ∧ d' = mkDb (users d ++ [User.mk (next_id (User.id <$> users d)) h e pwhash zip_code])
                (posts d) (comments d).
Proof.
  unfold commit_user. destruct username as [h|], email as [e|]; try done.
  case_decide as Hexists; [done|]. intros [= <-].
  exists h, e. split_and!; try done.
  - apply Forall_forall. intros u Hu Hname. apply Hexists, Exists_exists. eauto.
  - apply Forall_forall. intros u Hu Hmail. apply Hexists, Exists_exists. eauto.
Qed.

Lemma register_db_step w request st :
  db_step (db st) (db (register w request st).2).
Proof.
  destruct (method request) eqn:Hmethod.
  { unfold register. rewrite Hmethod. apply db_kept. }
  destruct (user_by_username (db st) (form_get request "username")) as [u|] eqn:Hu.
  { rewrite (register_duplicate _ _ _ u) by done. apply db_kept. }
  rewrite register_new by done.
  destruct (generate_password_hash _ _) as [pwhash|]; [|apply db_kept].
  destruct (commit_user _ _ _ _ _) as [d'|] eqn:Hcommit; [|apply db_kept].
  apply commit_user_Ok_fresh in Hcommit as (h & e & _ & _ & Hh & He & ->).
  by apply db_registered.
Qed.

(** The account of the session is a row of the table. *)
Lemma current_user_elem st user : current_user st = Some user → user ∈ users (db st).
Proof.
  unfold current_user, load_user, user_get. destruct (session st) as [user_id|]; [|done].
  cbn. intros ([i u] & (Hi & _)%list_find_Some & ->)%fmap_Some.
  by eapply list_elem_of_lookup_2.
Qed.

Lemma login_required_db_step view st :
  (∀ user, current_user st = Some user → db_step (db st) (db (view user st).2)) →
  db_step (db st) (db (login_required view st).2).
Proof.
  intros Hview. unfold login_required. destruct (current_user st); [by apply Hview|].
  apply db_kept.
Qed.

Lemma keeps_db_step {A} (m : M A) st : keeps db m → db_step (db st) (db (m st).2).
Proof. intros ->. apply db_kept. Qed.

Lemma create_post_db_step request user st :
  user ∈ users (db st) →
  db_step (db st) (db (create_post request user st).2).
Proof.
  intros Huser. destruct (form_get request "content") as [c|] eqn:Hc.
  - rewrite (create_post_appends _ _ _ c) by done. by apply db_posted.
  - unfold create_post, commit_post. rewrite Hc. apply db_kept.
Qed.

Lemma like_post_db_step post_id user st :
  db_step (db st) (db (like_post post_id user st).2).
Proof.
  destruct (post_get (db st) post_id) as [[[i post]|]|e] eqn:Hget.
  - rewrite (like_post_found _ _ _ i post) by done.
    apply post_get_Ok in Hget as [_ Hrow]. by eapply db_liked.
  - rewrite like_post_missing by done. apply db_kept.
  - rewrite (like_post_raises _ _ _ e) by done. apply db_kept.
Qed.

Lemma add_comment_db_step post_id request user st :
  user ∈ users (db st) →
  db_step (db st) (db (add_comment post_id request user st).2).
Proof.
  intros Huser. unfold add_comment, commit_comment.
  case_decide; [|apply db_kept].
  destruct (form_get request "content") as [c|]; [by apply db_commented | apply db_kept].
Qed.

Lemma dispatch_db_step w route request st :
  db_step (db st) (db (dispatch w route request st).2).
Proof.
  unfold dispatch. destruct (allows route (method request)); [|apply db_kept].
  destruct route; try apply login_required_db_step; intros;
    eauto using register_db_step, create_post_db_step, like_post_db_step,
      add_comment_db_step, current_user_elem, keeps_db_step, login_keeps_db,
      representatives_keeps_db, contact_rep_keeps_db, db_kept.
  - apply keeps_db_step. intros st'. f_equal. apply civic_quiz_keeps_state.
Qed.
End steps.

(** ** What every sequence of requests keeps *)

Section invariants.
Context {werkzeug : Werkzeug} {pyint : PyInt}.
Local Open Scope Z_scope.

Lemma run_db_invariant (P : Db → Prop) :
  (∀ d d', db_step d d' → P d → P d') →
  ∀ calls st, P (db st) → P (db (run st calls)).
Proof.
  intros Hstep calls. induction calls as [|[[w route] request] calls IH]; intros st Hst.
  - done.
  - cbn [run foldl handle]. apply IH. eapply Hstep; [apply dispatch_db_step | done].
Qed.

Lemma next_id_above ids x : x ∈ ids → x < next_id ids.
Proof.
  unfold next_id. induction ids as [|y ids IH]; [by intros ?%elem_of_nil|].
  intros [->|Hx%IH]%elem_of_cons; cbn [foldr]; lia.
Qed.

Lemma next_id_fresh ids : next_id ids ∉ ids.
Proof. intros Hin%next_id_above. lia. Qed.

Lemma NoDup_snoc_fmap {A B} (f : A → B) (l : list A) (x : A) :
  NoDup (f <$> l) → f x ∉ f <$> l → NoDup (f <$> l ++ [x]).
Proof.
  intros Hl Hx. rewrite fmap_app. apply NoDup_app. split_and!; [done | | apply NoDup_singleton].
  intros y Hy ->%list_elem_of_singleton. done.
Qed.

Lemma db_step_users_wf d d' : db_step d d' → users_wf d → users_wf d'.
Proof.
  intros [|h e pwhash zip_code Hh He|c user Huser|post_id i post Hget|c user post_id Huser];
    try done.
  intros (Hnames & Hmails & Hids). unfold users_wf. cbn [users]. split_and!.
  - apply NoDup_snoc_fmap; [done|]. cbn.
    intros (u & Hname & Hu)%list_elem_of_fmap.
    by eapply (proj1 (Forall_forall _ _) Hh).
  - apply NoDup_snoc_fmap; [done|]. cbn.
    intros (u & Hmail & Hu)%list_elem_of_fmap.
    by eapply (proj1 (Forall_forall _ _) He).
  - apply NoDup_snoc_fmap; [done|]. cbn. apply next_id_fresh.
Qed.

Lemma liked_ids (l : list Post.t) i post :
  l !! i = Some post → Post.id <$> <[i := liked post]> l = Post.id <$> l.
Proof.
  intros Hi. rewrite list_fmap_insert. apply list_insert_id.
  by rewrite list_lookup_fmap, Hi.
Qed.

Lemma db_step_post_ids d d' :
  db_step d d' → NoDup (Post.id <$> posts d) → NoDup (Post.id <$> posts d').
Proof.
  intros [|h e pwhash zip_code Hh He|c user Huser|post_id i post Hget|c user post_id Huser];
    try done; cbn [posts commit_like]; intros Hids.
  - apply NoDup_snoc_fmap; [done|]. cbn. apply next_id_fresh.
  - unfold post_row in Hget; apply list_find_Some in Hget as (Hi & _). by rewrite liked_ids.
Qed.


Lemma same_post_refl p : same_post p p.
Proof. unfold same_post. split_and!; (done || lia). Qed.

Lemma same_post_trans p q r : same_post p q → same_post q r → same_post p r.
Proof. unfold same_post. intros (-> & -> & -> & ?) (-> & -> & -> & ?). split_and!; (done || lia). Qed.

Lemma same_post_liked p : same_post p (liked p).
Proof. unfold same_post, liked. cbn. split_and!; (done || lia). Qed.

Lemma same_posts_refl (l : list Post.t) : Forall2 same_post l l.
Proof. apply Forall_Forall2_diag, Forall_forall. intros p _. apply same_post_refl. Qed.

Lemma same_posts_liked (l : list Post.t) i post :
  l !! i = Some post → Forall2 same_post l (<[i := liked post]> l).
Proof.
  intros Hi. rewrite <- (list_insert_id l i post) at 1 by done.
  apply Forall2_insert; [apply same_posts_refl | apply same_post_liked].
Qed.

Lemma db_grows_refl d : db_grows d d.
Proof.
  split_and!; [done | done |]. exists (posts d), [].
  split; [by rewrite app_nil_r | apply same_posts_refl].
Qed.

Lemma db_grows_trans d1 d2 d3 : db_grows d1 d2 → db_grows d2 d3 → db_grows d1 d3.
Proof.
  intros (Hu1 & Hc1 & k1 & n1 & Hp1 & Hk1) (Hu2 & Hc2 & k2 & n2 & Hp2 & Hk2).
  split_and!; [by etrans | by etrans |].
  rewrite Hp1 in Hk2. apply Forall2_app_inv_l in Hk2 as (k2a & k2b & Hk2a & Hk2b & ->).
  exists k2a, (k2b ++ n2). split; [by rewrite Hp2, (assoc_L (++))|].
  eapply Forall2_trans; [|done..]. apply same_post_trans.
Qed.

Lemma db_step_grows d d' : db_step d d' → db_grows d d'.
Proof.
  intros [|h e pwhash zip_code Hh He|c user Huser|post_id i post Hget|c user post_id Huser].
  - apply db_grows_refl.
  - split_and!; cbn [users comments posts]; [by apply prefix_app_r | done |].
    exists (posts d), []. split; [by rewrite app_nil_r | apply same_posts_refl].
  - split_and!; cbn [users comments posts]; [done..|].
    eexists (posts d), _. split; [done | apply same_posts_refl].
  - split_and!; cbn [users comments posts commit_like]; [done..|].
    exists (<[i := liked post]> (posts d)), []. split; [by rewrite app_nil_r|].
    unfold post_row in Hget; apply list_find_Some in Hget as (Hi & _). by apply same_posts_liked.
  - split_and!; cbn [users comments posts]; [done | by apply prefix_app_r |].
    exists (posts d), []. split; [by rewrite app_nil_r | apply same_posts_refl].
Qed.

Lemma run_db_grows calls : ∀ st, db_grows (db st) (db (run st calls)).
Proof.
  induction calls as [|[[w route] request] calls IH]; intros st.
  - apply db_grows_refl.
  - cbn [run foldl handle]. eapply db_grows_trans; [|apply IH].
    apply db_step_grows, dispatch_db_step.
Qed.

(** X1. Over any sequence of requests the accounts keep pairwise distinct
    handles, pairwise distinct contact addresses and pairwise distinct ids,
    if they had them before; so they do from the start of the server on. *)
Theorem accounts_stay_distinct calls :
  (∀ st, users_wf (db st) → users_wf (db (run st calls)))
  ∧ users_wf (db (run started calls)).
Proof.
  assert (∀ st, users_wf (db st) → users_wf (db (run st calls))) as Hrun.
  { intros st. apply run_db_invariant. apply db_step_users_wf. }
  split; [done|]. apply Hrun. repeat split; constructor.
Qed.

(** X2. Over any sequence of requests the posts keep pairwise distinct ids:
    a new post never takes the id of a stored one, and a like leaves the ids
    alone. *)
Theorem post_ids_stay_distinct calls :
  (∀ st, NoDup (Post.id <$> posts (db st)) →
         NoDup (Post.id <$> posts (db (run st calls))))
  ∧ NoDup (Post.id <$> posts (db (run started calls))).
Proof.
  assert (∀ st, NoDup (Post.id <$> posts (db st)) →
                NoDup (Post.id <$> posts (db (run st calls)))) as Hrun.
  { intros st. apply (run_db_invariant (λ d, NoDup (Post.id <$> posts d))).
    apply db_step_post_ids. }
  split; [done|]. apply Hrun. constructor.
Qed.

(** X3. Nothing is ever deleted or edited: after any sequence of requests
    the accounts and the comments that were stored are still the first rows
    of their tables, unchanged, and every stored post is still at its place
    with its id, its content and its owner, and with no fewer likes. *)
Theorem tables_only_grow calls st :
  users (db st) `prefix_of` users (db (run st calls))
  ∧ comments (db st) `prefix_of` comments (db (run st calls))
  ∧ ∀ i p, posts (db st) !! i = Some p →
           ∃ p', posts (db (run st calls)) !! i = Some p' ∧ same_post p p'.
Proof.
  destruct (run_db_grows calls st) as (Hu & Hc & kept & new & Hposts & Hkept).
  split_and!; [done..|]. intros i p Hi.
  destruct (Forall2_lookup_l _ _ _ _ _ Hkept Hi) as (p' & Hi' & Hsame).
  exists p'. split; [|done]. rewrite Hposts. by apply lookup_app_l_Some.
Qed.

End invariants.

(** ** Likes *)

Section likes.
Context {werkzeug : Werkzeug} {pyint : PyInt}.
Local Open Scope Z_scope.



End likes.

(** ** Sessions *)

Section sessions.
Context {werkzeug : Werkzeug} {pyint : PyInt}.

Lemma anonymous_view view st :
  current_user st = None →
  login_required view st
  = (Ok (Redirect "login"),
     mkState (db st) (session st) (flashes st ++ ["Please log in to access this page."])
             (http_log st)).
Proof. intros Hanon. unfold login_required. by rewrite Hanon. Qed.

(** X5. Without a session that names an account, a request to a route
    behind [@login_required] does not run the view: it is answered with the
    redirect to the login page and flask-login's message, and the tables,
    the session and the log of HTTP requests stay as they are. *)
Theorem anonymous_is_redirected w route request st :
  current_user st = None →
  protected route = true →
  allows route (method request) = true →
  dispatch w route request st
  = (Ok (Redirect "login"),
     mkState (db st) (session st) (flashes st ++ ["Please log in to access this page."])
             (http_log st)).
Proof.
  intros Hanon Hprotected Hallowed. unfold dispatch. rewrite Hallowed.
  destruct route; try discriminate; by apply anonymous_view.
Qed.

(** X6. A request without a logged-in account never changes the posts or
    the comments, whatever its route, method and form. *)
Theorem anonymous_changes_no_content w route request st :
  current_user st = None →
  posts (db (dispatch w route request st).2) = posts (db st)
  ∧ comments (db (dispatch w route request st).2) = comments (db st).
Proof.
  intros Hanon. unfold dispatch. destruct (allows route (method request)); [|done].
  destruct route; try (by rewrite anonymous_view).
  - split; [apply keeps_register | apply register_keeps_comments].
  - by rewrite login_keeps_db.
Qed.

Lemma login_session request st :
  session (login request st).2 = session st
  ∨ ∃ u, user_by_username (db st) (form_get request "username") = Some u
         ∧ check_password_hash (User.password u) (form_get request "password") = Ok true
         ∧ session (login request st).2 = Some (User.id u).
Proof.
  unfold login. destruct (method request); [by left|]. unfold_M.
  destruct (user_by_username _ _) as [u|]; [|by left].
  destruct (check_password_hash _ _) as [[]|] eqn:Hcheck; [|by left..].
  right. by exists u.
Qed.

Lemma keeps_session_view (view : User.t → M Response) st :
  (∀ user, keeps session (view user)) →
  session (login_required view st).2 = session st.
Proof.
  intros Hview. unfold login_required. destruct (current_user st); [apply Hview | done].
Qed.

(** X7. The session changes in two ways only: a login whose handle names an
    account and whose password verifies against the hash of that account
    sets it to the id of that account, and a logout clears it; every other
    request, a failed login included, leaves it as it is. *)
Theorem session_changes_by_login_or_logout w route request st :
  session (dispatch w route request st).2 = session st
  ∨ (route = route_login
     ∧ ∃ u, user_by_username (db st) (form_get request "username") = Some u
            ∧ check_password_hash (User.password u) (form_get request "password") = Ok true
            ∧ session (dispatch w route request st).2 = Some (User.id u))
  ∨ (route = route_logout ∧ session (dispatch w route request st).2 = None).
Proof.
  unfold dispatch. destruct (allows route (method request)); [|by left].
  destruct route.
  - left. apply keeps_session_view. done.
  - left. apply register_keeps_session.
  - destruct (login_session request st) as [?|?]; [by left | right; by left].
  - unfold login_required. destruct (current_user st); [right; by right | by left].
  - left. apply keeps_session_view. intros user. unfold create_post. frame.
  - left. apply keeps_session_view. intros user. unfold like_post, commit_like. frame.
  - left. apply keeps_session_view. intros user. unfold add_comment. frame.
  - left. apply keeps_session_view. intros user st'.
    by rewrite (civic_quiz_keeps_state request user st').
  - left. apply keeps_session_view. intros user. apply representatives_keeps_session.
  - left. apply keeps_session_view. intros user. unfold contact_rep. frame.
Qed.

(** A row is what a lookup of its id finds when ids are distinct. *)
Lemma user_get_row d u :
  NoDup (User.id <$> users d) → u ∈ users d → user_get d (User.id u) = Some u.
Proof.
  intros Hids (i & Hi)%list_elem_of_lookup_1. unfold user_get.
  destruct (list_find (λ v, User.id v = User.id u) (users d)) as [[j v]|] eqn:Hfind.
  - apply list_find_Some in Hfind as (Hj & Hid & _). cbn.
    assert (i = j) as ->; [|congruence].
    eapply NoDup_lookup; [done | |]; rewrite list_lookup_fmap.
    + by rewrite Hi.
    + rewrite Hj. cbn. by f_equal.
  - apply list_find_None in Hfind.
    by destruct (proj1 (Forall_forall _ _) Hfind u (list_elem_of_lookup_2 _ _ _ Hi)).
Qed.

Lemma user_by_username_elem d name u : user_by_username d name = Some u → u ∈ users d.
Proof.
  unfold user_by_username. destruct name as [h|]; [|done].
  intros ([i v] & (Hi & _)%list_find_Some & ->)%fmap_Some.
  by eapply list_elem_of_lookup_2.
Qed.

(** X8. When the ids of the accounts are pairwise distinct, a login with the
    handle of an account and a password that verifies makes that account
    the current user of the following requests; a logout after it leaves no
    current user. *)
Theorem login_sets_current_user request st u :
  method request = POST →
  user_by_username (db st) (form_get request "username") = Some u →
  check_password_hash (User.password u) (form_get request "password") = Ok true →
  NoDup (User.id <$> users (db st)) →
  (login request st).1 = Ok (Redirect "index")
  ∧ current_user (login request st).2 = Some u
  ∧ current_user (logout u (login request st).2).2 = None.
Proof.
  intros Hpost Hu Hcheck Hids. unfold login. rewrite Hpost. unfold_M.
  rewrite Hu, Hcheck. cbn. split_and!; [done | | done].
  unfold current_user, load_user. cbn.
  apply user_get_row; [done|]. by eapply user_by_username_elem.
Qed.
End sessions.

(** ** Outgoing HTTP requests *)

Section outgoing.
Context {werkzeug : Werkzeug} {pyint : PyInt}.

Lemma representatives_http_log w user st :
  http_log (representatives w user st).2
  = match User.zip_code user with
    | None | Some EmptyString => http_log st
    | Some zip_code => http_log st ++ [api_url w zip_code]
    end.
Proof.
  unfold representatives, try_except_RequestException, requests_get.
  destruct (User.zip_code user) as [[|c zip_code]|]; [done | | done].
  unfold_M. destruct (network w _ _); cbn; [done|].
  destruct (raise_for_status response) as [[]|[]]; cbn; try done.
  destruct (response_json response) as [data|[]]; cbn; try done.
  destruct (py_get data "offices" _) as [offices|[]]; cbn; try done.
  destruct (py_get data "officials" _) as [officials|[]]; cbn; try done.
  destruct (collect_representatives offices officials) as [reps|[]]; cbn; done.
Qed.

Lemma keeps_http_log_view (view : User.t → M Response) st :
  (∀ user, keeps http_log (view user)) →
  http_log (login_required view st).2 = http_log st.
Proof.
  intros Hview. unfold login_required. destruct (current_user st); [apply Hview | done].
Qed.

Lemma dispatch_http_log w route request st :
  http_log (dispatch w route request st).2 = http_log st
  ∨ (route = route_representatives
     ∧ ∃ user zip_code,
         current_user st = Some user
         ∧ User.zip_code user = Some zip_code
         ∧ zip_code ≠ ""
         ∧ http_log (dispatch w route request st).2 = http_log st ++ [api_url w zip_code]).
Proof.
  unfold dispatch. destruct (allows route (method request)); [|by left].
  destruct route.
  - left. apply keeps_http_log_view. done.
  - left. apply register_keeps_http_log.
  - left. apply login_keeps_http_log.
  - left. apply keeps_http_log_view. done.
  - left. apply keeps_http_log_view. intros user. unfold create_post. frame.
  - left. apply keeps_http_log_view. intros user. unfold like_post, commit_like. frame.
  - left. apply keeps_http_log_view. intros user. unfold add_comment. frame.
  - left. apply keeps_http_log_view. intros user st'.
    by rewrite (civic_quiz_keeps_state request user st').
  - unfold login_required. destruct (current_user st) as [user|] eqn:Huser; [|by left].
    rewrite representatives_http_log.
    destruct (User.zip_code user) as [[|c zip_code]|] eqn:Hzip; [by left | | by left].
    right. split; [done|]. by exists user, (String c zip_code).
  - left. apply keeps_http_log_view. intros user. unfold contact_rep. frame.
Qed.

(** X9. A handled request issues at most one HTTP request, and only the
    representative lookup of a logged-in account with a non-empty postal code
    issues one, to the API URL with the key and that postal code; so over any
    sequence of requests the log of HTTP requests only grows at its end, by
    no more entries than requests were handled. *)
Theorem one_http_request_at_most w route request st calls :
  (http_log (dispatch w route request st).2 = http_log st
   ∨ (route = route_representatives
      ∧ ∃ user zip_code,
          current_user st = Some user
          ∧ User.zip_code user = Some zip_code
          ∧ zip_code ≠ ""
          ∧ http_log (dispatch w route request st).2 = http_log st ++ [api_url w zip_code]))
  ∧ http_log st `prefix_of` http_log (run st calls)
  ∧ length (http_log (run st calls)) ≤ length (http_log st) + length calls.
Proof.
  split; [apply dispatch_http_log|]. clear w route request. unfold run.
  revert st. induction calls as [|[[w route] request] calls IH]; intros st.
  - cbn. split; [done | lia].
  - cbn [foldl handle length].
    destruct (IH (dispatch w route request st).2) as [Hprefix Hlength].
    destruct (dispatch_http_log w route request st) as [Hlog|(_ & _ & zip & _ & _ & _ & Hlog)];
      rewrite Hlog in Hprefix, Hlength.
    + split; [done | lia].
    + rewrite length_app in Hlength. cbn in Hlength. split; [|lia].
      etrans; [|done]. by apply prefix_app_r.
Qed.
End outgoing.

(** ** More on the quiz scorer *)

Section scorer_more.
Local Open Scope Z_scope.

Lemma sum_permutation answers answers' : answers ≡ₚ answers' → sum answers = sum answers'.
Proof. unfold sum. induction 1; cbn [foldr]; lia. Qed.

(** X10. The score does not depend on the order of the answers. *)
Theorem score_ignores_order answers answers' :
  answers ≡ₚ answers' →
  calculate_civic_engagement_score answers = calculate_civic_engagement_score answers'.
Proof.
  intros Hperm. unfold calculate_civic_engagement_score.
  by rewrite (sum_permutation _ _ Hperm), (Permutation_length Hperm).
Qed.

(** X11. The scorer raises [ZeroDivisionError] on the empty answer list and
    on no other; on a list that is not empty (the quiz view passes three
    answers) it either returns a score or raises [OverflowError]. *)
Theorem zero_division_only_when_empty answers :
  (calculate_civic_engagement_score answers = Raise ZeroDivisionError ↔ answers = [])
  ∧ (answers ≠ [] →
     returns (calculate_civic_engagement_score answers)
     ∨ calculate_civic_engagement_score answers = Raise OverflowError).
Proof.
  destruct answers as [|a answers].
  { split; [done|]. by intros []. }
  unfold calculate_civic_engagement_score, Float64.int_truediv.
  replace (Z.of_nat (length (a :: answers)) =? 0) with false
    by (symmetry; apply Z.eqb_neq; cbn [length]; lia).
  generalize (Float64.div (Float64.exact (sum (a :: answers)))
                (Float64.exact (Z.of_nat (length (a :: answers))))).
  intros ratio. unfold mbind, result_mbind, result_bind, returns.
  destruct ratio; (split; [done|]); intros _; first [right; reflexivity | left; by eexists].
Qed.

Lemma ranges_agree_sound lo n s :
  ranges_agree lo n = true →
  lo ≤ s < lo + n →
  ∃ x, calculate_civic_engagement_score [s; 0; 0] = Ok x
       ∧ score_within x = bool_decide (0 ≤ s ≤ 3).
Proof.
  unfold ranges_agree. rewrite forallb_forall. intros Hall Hs.
  specialize (Hall s). revert Hall.
  generalize (calculate_civic_engagement_score [s; 0; 0]). intros [x|e] Hall.
  - exists x. split; [done|]. eapply bool_decide_eq_true_1, Hall, list_elem_of_In, elem_of_seqZ, Hs.
  - discriminate Hall. eapply list_elem_of_In, elem_of_seqZ, Hs.
Qed.

Lemma ranges_agree_upto_3000 : ranges_agree (-3000) 6001 = true.
Proof. vm_cast_no_check (eq_refl true). Qed.

(** X12. The scorer does not clamp: for three answers between -1000 and 1000
    each it returns a score, and that score lies between [0.0] and [100.0]
    exactly when the sum of the answers lies between 0 and 3; answers other
    than 0 and 1 can take it below [0.0] or above [100.0]. *)
Theorem score_is_not_clamped a1 a2 a3 :
  -1000 ≤ a1 ≤ 1000 → -1000 ≤ a2 ≤ 1000 → -1000 ≤ a3 ≤ 1000 →
  ∃ x, calculate_civic_engagement_score [a1; a2; a3] = Ok x
       ∧ (score_within x = true ↔ 0 ≤ a1 + a2 + a3 ≤ 3).
Proof.
  intros H1 H2 H3. rewrite score_of_three.
  destruct (ranges_agree_sound (-3000) 6001 (a1 + a2 + a3) ranges_agree_upto_3000)
    as (x & Hx & Hwithin); [lia|].
  exists x. split; [done|]. rewrite Hwithin. apply bool_decide_eq_true.
Qed.

(** With answers that are 0 or 1 the score is [0.0], [33.3], [66.7] or
    [100.0], by the number of answers that are 1. *)
Theorem score_of_indicators a1 a2 a3 :
  (a1 = 0 ∨ a1 = 1) → (a2 = 0 ∨ a2 = 1) → (a3 = 0 ∨ a3 = 1) →
  calculate_civic_engagement_score [a1; a2; a3]
  = Ok (Float64.tenths (match a1 + a2 + a3 with
                        | 0 => 0
                        | 1 => 333
                        | 2 => 667
                        | _ => 1000
                        end)).
Proof.
  intros [-> | ->] [-> | ->] [-> | ->]; vm_compute; reflexivity.
Qed.
End scorer_more.

(** ** The representative lookup on a response *)

Section reshaping.
Local Open Scope Z_scope.

Lemma seq_item_nat {A} (l : list A) (i : nat) x :
  l !! i = Some x → seq_item l (Z.of_nat i) = Ok x.
Proof.
  intros Hi. unfold seq_item. cbv zeta.
  rewrite (proj2 (Z.ltb_ge (Z.of_nat i) 0)) by lia. cbv iota.
  rewrite (proj2 (Z.ltb_ge (Z.of_nat i) 0)) by lia.
  by rewrite Nat2Z.id, Hi.
Qed.

Lemma representative_ok office (officials : list (list (string * Json))) i official :
  officials !! i = Some official →
  representative (JDict office) (JList (JDict <$> officials)) (JInt (Z.of_nat i))
  = Ok (rep_of office official).
Proof.
  intros Hi. unfold representative. cbn [py_getitem].
  by rewrite (seq_item_nat _ _ (JDict official)) by (by rewrite list_lookup_fmap, Hi).
Qed.

Lemma for_each_indices office (officials : list (list (string * Json))) indices :
  Forall (λ i, (i < length officials)%nat) indices →
  for_each ((λ i, JInt (Z.of_nat i)) <$> indices)
    (λ index, rep ← representative (JDict office) (JList (JDict <$> officials)) index;
              Ok [rep])
  = Ok ((λ i, rep_of office (default [] (officials !! i))) <$> indices).
Proof.
  induction 1 as [|i indices Hi _ IH]; [done|].
  destruct (lookup_lt_is_Some_2 officials i Hi) as [official Hofficial].
  cbn [fmap list_fmap for_each].
  rewrite (representative_ok _ _ _ official) by done.
  change (list_fmap nat Json ?f indices) with (f <$> indices).
  rewrite IH, Hofficial. done.
Qed.

Lemma collect_representatives_ok (officials : list (list (string * Json))) offices indices :
  Forall2 (office_ok officials) offices indices →
  collect_representatives (JList (JDict <$> offices)) (JList (JDict <$> officials))
  = Ok (mjoin (zip_with (λ office office_indices,
                           (λ i, rep_of office (default [] (officials !! i)))
                             <$> office_indices)
                        offices indices)).
Proof.
  unfold collect_representatives. cbn [py_iter mbind result_mbind result_bind].
  induction 1 as [|office office_indices offices indices [Hlookup Hbounds] _ IH]; [done|].
  cbn [fmap list_fmap for_each py_getitem zip_with mjoin list_join].
  rewrite Hlookup. cbn [mbind result_mbind result_bind py_iter].
  rewrite for_each_indices by done. cbn [result_bind].
  change (list_fmap _ Json JDict offices) with (JDict <$> offices).
  by rewrite IH.
Qed.

Lemma py_get_uncaught d key default_value e :
  py_get d key default_value = Raise e → uncaught e.
Proof. destruct d; cbn; by intros [= <-]. Qed.

Lemma py_iter_uncaught v e : py_iter v = Raise e → uncaught e.
Proof. destruct v; cbn; by intros [= <-]. Qed.

Lemma seq_item_uncaught {A} (l : list A) i e : seq_item l i = Raise e → uncaught e.
Proof. unfold seq_item. repeat case_match; by intros [= <-]. Qed.

Lemma py_getitem_uncaught v k e : py_getitem v k = Raise e → uncaught e.
Proof.
  unfold py_getitem, result_map, result_bind.
  repeat case_match;
    first [ by intros [= <-] | done | by apply seq_item_uncaught
          | intros [= <-]; by eapply seq_item_uncaught ].
Qed.

Lemma representative_uncaught office officials index e :
  representative office officials index = Raise e → uncaught e.
Proof.
  unfold representative, mbind, result_mbind, result_bind.
  repeat case_match;
    first [ done
          | intros [= <-];
            first [by eapply py_get_uncaught | by eapply py_getitem_uncaught] ].
Qed.

Lemma for_each_uncaught {A} (items : list A) body e :
  (∀ item e', body item = Raise e' → uncaught e') →
  for_each items body = Raise e → uncaught e.
Proof.
  intros Hbody. induction items as [|item items IH]; [done|].
  cbn [for_each]. unfold mbind, result_mbind, result_bind.
  destruct (body item) eqn:Hitem; [|intros [= <-]; by eapply Hbody].
  destruct (for_each items body); [done|]. intros [= <-]. by apply IH.
Qed.

Lemma reshape_uncaught data e : reshape data = Raise e → uncaught e.
Proof.
  unfold reshape, collect_representatives, mbind, result_mbind, result_bind.
  destruct (py_get data "offices" _) as [offices|] eqn:Hoffices;
    [|intros [= <-]; by eapply py_get_uncaught].
  destruct (py_get data "officials" _) as [officials|] eqn:Hofficials;
    [|intros [= <-]; by eapply py_get_uncaught].
  destruct (py_iter offices) as [office_list|] eqn:Hiter;
    [|intros [= <-]; by eapply py_iter_uncaught].
  apply for_each_uncaught. intros office e'.
  destruct (py_getitem office _) as [indices|] eqn:Hindices;
    [|intros [= <-]; by eapply py_getitem_uncaught].
  destruct (py_iter indices) as [index_list|] eqn:Hiter';
    [|intros [= <-]; by eapply py_iter_uncaught].
  apply for_each_uncaught. intros index e''.
  destruct (representative office officials index) eqn:Hrep; [done|].
  intros [= <-]. by eapply representative_uncaught.
Qed.

(** The view on a decoded response that [raise_for_status] lets pass. *)
Lemma representatives_responded w user st zip_code response data :
  User.zip_code user = Some zip_code →
  zip_code ≠ "" →
  network w (http_log st) (api_url w zip_code) = Responded response →
  ¬ 400 ≤ status_code response < 600 →
  body response = Document data →
  representatives w user st
  = (match reshape data with
     | Ok reps => Ok (Render "representatives.html" (RepresentativesArg reps))
     | Raise e => Raise e
     end,
     mkState (db st) (session st) (flashes st) (http_log st ++ [api_url w zip_code])).
Proof.
  intros Hzip Hne Hnet Hcode Hbody. unfold representatives. rewrite Hzip.
  destruct zip_code as [|c zip_code]; [done|]. set (zip := String c zip_code) in *.
  unfold try_except_RequestException, requests_get. unfold_M. rewrite Hnet.
  replace (raise_for_status response) with (Ok () : result unit).
  2:{ unfold raise_for_status, http_error_msg. by repeat case_bool_decide; try lia. }
  unfold response_json. rewrite Hbody.
  pose proof (reshape_uncaught data) as Huncaught. revert Huncaught.
  unfold reshape, mbind, result_mbind, result_bind.
  destruct (py_get data "offices" _) as [offices|e]; [|by intros H; destruct e; try done; destruct (H _ eq_refl)].
  destruct (py_get data "officials" _) as [officials|e]; [|by intros H; destruct e; try done; destruct (H _ eq_refl)].
  destruct (collect_representatives offices officials) as [reps|e]; [done|].
  by intros H; destruct e; try done; destruct (H _ eq_refl).
Qed.

(** X13. On a response that is no error status and whose body is an object
    with a list [offices] of objects and a list [officials] of objects, each
    office listing positions of the list of officials, the lookup succeeds
    after its one HTTP request: it renders one representative for every
    position of every office, in the order of the offices and then of the
    positions, with the name of the office and the fields of the official,
    a missing field being [None] or the empty list. *)
Theorem representatives_of_well_formed w user st zip_code response data offices officials
    indices :
  User.zip_code user = Some zip_code →
  zip_code ≠ "" →
  network w (http_log st) (api_url w zip_code) = Responded response →
  ¬ 400 ≤ status_code response < 600 →
  body response = Document (JDict data) →
  dict_lookup data "offices" = Some (JList (JDict <$> offices)) →
  dict_lookup data "officials" = Some (JList (JDict <$> officials)) →
  Forall2 (office_ok officials) offices indices →
  representatives w user st
  = (Ok (Render "representatives.html"
           (RepresentativesArg
              (mjoin (zip_with (λ office office_indices,
                                  (λ i, rep_of office (default [] (officials !! i)))
                                    <$> office_indices)
                               offices indices)))),
     mkState (db st) (session st) (flashes st) (http_log st ++ [api_url w zip_code])).
Proof.
  intros Hzip Hne Hnet Hcode Hbody Hoffices Hofficials Hok.
  rewrite (representatives_responded w user st zip_code response (JDict data)) by done.
  unfold reshape, mbind, result_mbind, result_bind, py_get.
  rewrite Hoffices, Hofficials. cbn [default from_option]. unfold id.
  by rewrite (collect_representatives_ok officials offices indices).
Qed.

(** X14. An exception raised while the decoded body is reshaped (a body
    that is no object, an office without [officialIndices], a position
    outside the list of officials, ...) is never a [RequestException]: the
    [except] clause does not catch it, and it leaves the view after the one
    HTTP request, with nothing flashed. *)
Theorem malformed_response_escapes w user st zip_code response data e :
  User.zip_code user = Some zip_code →
  zip_code ≠ "" →
  network w (http_log st) (api_url w zip_code) = Responded response →
  ¬ 400 ≤ status_code response < 600 →
  body response = Document data →
  reshape data = Raise e →
  uncaught e
  ∧ representatives w user st
    = (Raise e,
       mkState (db st) (session st) (flashes st) (http_log st ++ [api_url w zip_code])).
Proof.
  intros Hzip Hne Hnet Hcode Hbody Hreshape. split; [by eapply reshape_uncaught|].
  rewrite (representatives_responded w user st zip_code response data) by done.
  by rewrite Hreshape.
Qed.
End reshaping.

(** ** Posting as the logged-in account *)

Section posting.
Context {werkzeug : Werkzeug} {pyint : PyInt}.
Local Open Scope Z_scope.

(** X15. After a login that succeeds for an account (the ids of the accounts
    being pairwise distinct), a post submitted with a content is stored as a
    post of that account, without likes and under an id no stored post has,
    and the caller is sent to the feed. *)
Theorem post_belongs_to_logged_in_account w credentials_form post_request st u c :
  method credentials_form = POST →
  user_by_username (db st) (form_get credentials_form "username") = Some u →
  check_password_hash (User.password u) (form_get credentials_form "password") = Ok true →
  NoDup (User.id <$> users (db st)) →
  method post_request = POST →
  form_get post_request "content" = Some c →
  let st1 := (login credentials_form st).2 in
  let post := Post.mk (next_id (Post.id <$> posts (db st))) c (User.id u) 0 in
  dispatch w route_create_post post_request st1
  = (Ok (Redirect "index"),
     mkState (mkDb (users (db st)) (posts (db st) ++ [post]) (comments (db st)))
             (Some (User.id u)) (flashes st) (http_log st))
  ∧ Post.id post ∉ Post.id <$> posts (db st).
Proof.
  intros Hpost Hu Hcheck Hids Hpost' Hc. cbn zeta.
  assert (user_get (db st) (User.id u) = Some u) as Hget.
  { apply user_get_row; [done|]. unfold user_by_username in Hu.
    destruct (form_get credentials_form "username"); [|done].
    apply fmap_Some in Hu as ([i v] & (Hi & _)%list_find_Some & ->).
    by eapply list_elem_of_lookup_2. }
  split; [|apply next_id_fresh].
  unfold login. rewrite Hpost. unfold_M. rewrite Hu, Hcheck. cbn [snd].
  unfold dispatch. rewrite Hpost'. cbn [allows].
  unfold login_required, current_user, load_user. cbn [session db mbind option_bind].
  rewrite Hget. by rewrite (create_post_appends _ _ _ c).
Qed.

(** X16. Whatever the store holds, right after a post has been created the
    feed starts with it: its id is larger than every stored id, and the feed
    is sorted by descending id. *)
Theorem newest_post_is_listed_first request author reader st c :
  form_get request "content" = Some c →
  ∃ older,
    index reader (create_post request author st).2
    = (Ok (Render "index.html"
             (PostsArg (Post.mk (next_id (Post.id <$> posts (db st))) c (User.id author) 0
                        :: older))),
       (create_post request author st).2)
    ∧ older ≡ₚ posts (db st).
Proof.
  intros Hc. rewrite (create_post_appends _ _ _ c) by done. cbn [snd].
  rewrite index_lists. unfold posts_by_id_desc. cbn [db posts].
  set (new := Post.mk _ c _ 0). set (l := posts (db st)).
  pose proof (merge_sort_Permutation id_desc (l ++ [new])) as Hperm.
  pose proof (StronglySorted_merge_sort id_desc (l ++ [new])) as Hsorted.
  destruct (merge_sort id_desc (l ++ [new])) as [|first older] eqn:Hsort.
  { apply Permutation_nil_l in Hperm. by destruct l. }
  assert (first = new) as ->.
  { assert (new ∈ first :: older) as Hnew.
    { rewrite Hperm. apply elem_of_app. right. by apply list_elem_of_singleton. }
    apply elem_of_cons in Hnew as [<-|Hnew]; [done|].
    apply StronglySorted_inv in Hsorted as [_ Hfirst].
    pose proof (proj1 (Forall_forall _ _) Hfirst new Hnew) as Hle. unfold id_desc in Hle.
    assert (first ∈ l ++ [new]) as [Hold|Hnew']%elem_of_app
      by (rewrite <- Hperm; apply elem_of_cons; by left).
    - assert (Post.id first < next_id (Post.id <$> l)).
      { apply next_id_above, list_elem_of_fmap. eauto. }
      subst new l. cbn [Post.id] in Hle. lia.
    - by apply list_elem_of_singleton in Hnew'. }
  exists older. split; [done|].
  apply (inj (cons new)). rewrite Hperm.
  by rewrite (comm (++)).
Qed.
End posting.

(** ** The properties of the whole server at sample inputs *)

Lemma accounts_stay_distinct_witness :
  users_wf (db (run (werkzeug := plain_hashing) (pyint := decimal_int)
                  one_account first_visit)).
Proof.
  apply (proj1 (accounts_stay_distinct (werkzeug := plain_hashing) (pyint := decimal_int)
                  first_visit)).
  repeat split; apply NoDup_singleton.
Defined.

Lemma post_ids_stay_distinct_witness :
  NoDup (Post.id <$> posts (db (run (werkzeug := plain_hashing) (pyint := decimal_int)
                                  one_post [like 1; like 7; like 1]))).
Proof.
  apply (proj1 (post_ids_stay_distinct (werkzeug := plain_hashing) (pyint := decimal_int)
                  [like 1; like 7; like 1])).
  apply NoDup_singleton.
Defined.

Lemma tables_only_grow_witness :
  ∃ p', posts (db (run (werkzeug := plain_hashing) (pyint := decimal_int)
                     one_post [like 1; like 7; like 1])) !! 0%nat = Some p'
        ∧ same_post (Post.mk 1 "hello" 1 0) p'.
Proof.
  apply (proj2 (proj2 (tables_only_grow (werkzeug := plain_hashing) (pyint := decimal_int)
                         [like 1; like 7; like 1] one_post))).
  reflexivity.
Defined.


Lemma anonymous_is_redirected_witness :
  dispatch (werkzeug := plain_hashing) (pyint := decimal_int)
    offline (route_like_post 1) (mkRequest GET []) one_account
  = (Ok (Redirect "login"),
     mkState (mkDb [ada] [] []) None ["Please log in to access this page."] []).
Proof.
  apply (anonymous_is_redirected (werkzeug := plain_hashing) (pyint := decimal_int)
           offline (route_like_post 1) (mkRequest GET []) one_account); reflexivity.
Defined.

Lemma anonymous_changes_no_content_witness :
  posts (db (dispatch (werkzeug := plain_hashing) (pyint := decimal_int)
               offline route_create_post (post_form "hello") one_account).2) = []
  ∧ comments (db (dispatch (werkzeug := plain_hashing) (pyint := decimal_int)
                    offline route_create_post (post_form "hello") one_account).2) = [].
Proof.
  apply (anonymous_changes_no_content (werkzeug := plain_hashing) (pyint := decimal_int)
           offline route_create_post (post_form "hello") one_account).
  reflexivity.
Defined.

Lemma login_sets_current_user_witness :
  (login (werkzeug := plain_hashing) (credentials "ada" "lovelace") one_account).1
  = Ok (Redirect "index")
  ∧ current_user (login (werkzeug := plain_hashing) (credentials "ada" "lovelace")
                    one_account).2 = Some ada
  ∧ current_user (logout ada (login (werkzeug := plain_hashing)
                                (credentials "ada" "lovelace") one_account).2).2 = None.
Proof.
  apply (login_sets_current_user (werkzeug := plain_hashing)
           (credentials "ada" "lovelace") one_account ada);
    try reflexivity.
  apply NoDup_singleton.
Defined.

Lemma score_ignores_order_witness :
  calculate_civic_engagement_score [1; 0; 1]%Z
  = calculate_civic_engagement_score [0; 1; 1]%Z.
Proof.
  apply score_ignores_order. apply Permutation_swap.
Defined.

Lemma zero_division_only_when_empty_witness :
  returns (calculate_civic_engagement_score [1; 0; 1]%Z)
  ∨ calculate_civic_engagement_score [1; 0; 1]%Z = Raise OverflowError.
Proof. apply (proj2 (zero_division_only_when_empty [1; 0; 1]%Z)). discriminate. Defined.

Lemma score_is_not_clamped_witness :
  ∃ x, calculate_civic_engagement_score [2; 2; 2]%Z = Ok x
       ∧ (score_within x = true ↔ (0 ≤ 2 + 2 + 2 ≤ 3)%Z).
Proof. apply score_is_not_clamped; lia. Defined.

Lemma score_of_indicators_witness :
  calculate_civic_engagement_score [1; 0; 0]%Z = Ok (Float64.tenths 333).
Proof.
  apply (score_of_indicators 1 0 0); [by right | by left | by left].
Defined.

Lemma representatives_of_well_formed_witness :
  representatives (answering 200 "OK" (Document two_officials)) ada one_account
  = (Ok (Render "representatives.html"
           (RepresentativesArg [rep_of senate lincoln; rep_of senate douglas])),
     mkState (mkDb [ada] [] []) None []
             ["https://www.googleapis.com/civicinfo/v2/representatives?key=test-key&address=02139"]).
Proof.
  apply (representatives_of_well_formed (answering 200 "OK" (Document two_officials))
           ada one_account "02139"
           (mkHttpResponse 200 "OK"
              "https://www.googleapis.com/civicinfo/v2/representatives?key=test-key&address=02139"
              (Document two_officials))
           [("offices", JList [JDict senate]); ("officials", JList [JDict lincoln; JDict douglas])]
           [senate] [lincoln; douglas] [[0; 1]%nat]);
    try reflexivity.
  - discriminate.
  - cbn. lia.
  - repeat constructor.
Defined.

Lemma malformed_response_escapes_witness :
  uncaught IndexError
  ∧ representatives (answering 200 "OK" (Document one_official_short)) ada one_account
    = (Raise IndexError,
       mkState (mkDb [ada] [] []) None []
               ["https://www.googleapis.com/civicinfo/v2/representatives?key=test-key&address=02139"]).
Proof.
  apply (malformed_response_escapes (answering 200 "OK" (Document one_official_short))
           ada one_account "02139"
           (mkHttpResponse 200 "OK"
              "https://www.googleapis.com/civicinfo/v2/representatives?key=test-key&address=02139"
              (Document one_official_short))
           one_official_short IndexError);
    try reflexivity.
  - discriminate.
  - cbn. lia.
Defined.

Lemma post_belongs_to_logged_in_account_witness :
  dispatch (werkzeug := plain_hashing) (pyint := decimal_int)
    offline route_create_post (post_form "hello")
    (login (werkzeug := plain_hashing) (credentials "ada" "lovelace") one_account).2
  = (Ok (Redirect "index"),
     mkState (mkDb [ada] [Post.mk 1 "hello" 1 0] []) (Some 1%Z) [] [])
  ∧ (1 : Z) ∉ Post.id <$> posts (db one_account).
Proof.
  apply (post_belongs_to_logged_in_account (werkzeug := plain_hashing) (pyint := decimal_int)
           offline (credentials "ada" "lovelace") (post_form "hello") one_account ada "hello");
    try reflexivity.
  apply NoDup_singleton.
Defined.

Lemma newest_post_is_listed_first_witness :
  ∃ older,
    index ada (create_post (post_form "again") ada one_post).2
    = (Ok (Render "index.html" (PostsArg (Post.mk 2 "again" 1 0 :: older))),
       (create_post (post_form "again") ada one_post).2)
    ∧ older ≡ₚ [Post.mk 1 "hello" 1 0].
Proof.
  apply (newest_post_is_listed_first (post_form "again") ada ada one_post "again").
  reflexivity.
Defined.

(** ** A login without a password and likes at sample inputs *)

Lemma login_without_password_tells_handles_apart_witness :
  login (werkzeug := plain_hashing) (mkRequest POST [("username", "ada")]) one_account
  = (Raise AttributeError, one_account)
  ∧ login (werkzeug := plain_hashing) (mkRequest POST [("username", "eve")]) one_account
    = (Ok (Render "login.html" NoArgs),
       mkState (mkDb [ada] [] []) None ["Invalid username or password"] [])
  ∧ login (werkzeug := plain_hashing) (mkRequest POST [("username", "ada")]) one_account
    ≠ login (werkzeug := plain_hashing) (mkRequest POST [("username", "eve")]) one_account.
Proof.
  apply (login_without_password_tells_handles_apart (werkzeug := plain_hashing) one_account
           (mkRequest POST [("username", "ada")]) (mkRequest POST [("username", "eve")])
           ada AttributeError); reflexivity.
Defined.


